(** * SemantiSheet: the React client ([App.js]) and the retrieval contract

  The repository ships two revisions of the single-component client:
  - [src/frontend/src/App.js], the current one (status polling, no reset
    on mount), embedded in module [App];
  - [src/unnamed/part_001], an earlier revision of the same component
    (reset on mount, readiness guard inside [handleSearch], synchronous
    indexing), embedded in module [Legacy].

  Strings are JavaScript strings: sequences of UTF-16 code units.  The
  component state is the tuple of [useState] cells; a handler is a state
  transformer that also logs the HTTP requests it issues, and the HTTP
  responses it awaits are its arguments. *)

From Stdlib Require Import List ZArith NArith Bool String Ascii Lia.
From Stdlib Require Import Sorted Permutation DecimalString.
Import ListNotations.

Open Scope string_scope.
Open Scope list_scope.
Open Scope N_scope.

(* ================================================================== *)
(** ** JavaScript strings *)
(* ================================================================== *)

Module JS.

(** A string is its sequence of UTF-16 code units. *)
Definition jsstring := list N.

(** An ASCII literal of the source text. *)
Definition lit (s : string) : jsstring :=
  map N_of_ascii (list_ascii_of_string s).

Definition eqb (a b : jsstring) : bool :=
  if list_eq_dec N.eq_dec a b then true else false.

(** ECMAScript [LineTerminator]: LF, CR, LS, PS.  The regular expression
    atom [.] (without the [s] flag) matches everything else. *)
Definition isLineTerminator (c : N) : bool :=
  (c =? 10) || (c =? 13) || (c =? 8232) || (c =? 8233).

(** ECMAScript [WhiteSpace]: TAB, VT, FF, ZWNBSP and the Unicode
    space separators. *)
Definition isWhiteSpace (c : N) : bool :=
  (c =? 9) || (c =? 11) || (c =? 12) || (c =? 32) || (c =? 160)
  || (c =? 5760) || ((8192 <=? c) && (c <=? 8202))
  || (c =? 8239) || (c =? 8287) || (c =? 12288) || (c =? 65279).

(** What [String.prototype.trim] strips at both ends. *)
Definition isTrimmed (c : N) : bool := isWhiteSpace c || isLineTerminator c.

Fixpoint trimStart (s : jsstring) : jsstring :=
  match s with
  | [] => []
  | c :: tl => if isTrimmed c then trimStart tl else s
  end.

Definition trimEnd (s : jsstring) : jsstring := rev (trimStart (rev s)).

Definition trim (s : jsstring) : jsstring := trimEnd (trimStart s).

(** [!s] for a string [s]: only the empty string is falsy. *)
Definition falsy (s : jsstring) : bool :=
  match s with [] => true | _ => false end.

(** [a || b] on a possibly missing string field. *)
Definition orElse (a : option jsstring) (b : jsstring) : jsstring :=
  match a with
  | Some s => if falsy s then b else s
  | None => b
  end.

Fixpoint startsWith (p s : jsstring) : bool :=
  match p, s with
  | [], _ => true
  | _ :: _, [] => false
  | a :: p', b :: s' => (a =? b) && startsWith p' s'
  end.

(** [s.split(sep)] for a one-character separator: never an empty array. *)
Fixpoint split (sep : N) (s : jsstring) : list jsstring :=
  match s with
  | [] => [[]]
  | c :: tl =>
      if c =? sep then [] :: split sep tl
      else match split sep tl with
           | l :: ls => (c :: l) :: ls
           | [] => [[c]]
           end
  end.

(** Decimal rendering of an integer inside a template literal (the
    digits a JS number prints for an integer in its safe range). *)
Definition ofZ (z : Z) : jsstring :=
  lit (NilZero.string_of_int (Z.to_int z)).

End JS.

Import JS.

(* ================================================================== *)
(** ** renderMarkdown (identical in both revisions) *)
(* ================================================================== *)

Module Markdown.

Definition star : N := 42.
Definition space : N := 32.
Definition newline : N := 10.

(** After an opening [**]: the lazy group [(.*?)] followed by [\*\*].
    Returns the captured text when the closing [**] is found before a
    line terminator or the end of the input. *)
Fixpoint lazyClose (s : jsstring) : option jsstring :=
  match s with
  | [] => None
  | c :: tl =>
      if (c =? star) && startsWith [star] tl then Some []
      else if isLineTerminator c then None
      else option_map (cons c) (lazyClose tl)
  end.

(** A match of [/\*\*(.*?)\*\*/] anchored at the head of [s]. *)
Definition matchStrong (s : jsstring) : option jsstring :=
  match s with
  | a :: b :: rest =>
      if (a =? star) && (b =? star) then lazyClose rest else None
  | _ => None
  end.

(** [s.replace(/\*\*(.*?)\*\*/g, "<strong>$1</strong>")]: leftmost
    matches, scanned left to right.  A match at the current position
    consumes [4 + length captured] code units: the replacement is
    emitted at its first unit and the remaining ones are skipped. *)
Fixpoint replaceStrong (skip : nat) (s : jsstring) : jsstring :=
  match s with
  | [] => []
  | c :: tl =>
      match skip with
      | S n => replaceStrong n tl
      | O =>
          match matchStrong s with
          | Some captured =>
              lit "<strong>" ++ captured ++ lit "</strong>"
                ++ replaceStrong (3 + List.length captured) tl
          | None => c :: replaceStrong 0 tl
          end
      end
  end.

(** [t.replace(/^\* /, "<li>")]. *)
Definition replaceBullet (t : jsstring) : jsstring :=
  match t with
  | a :: b :: rest =>
      if (a =? star) && (b =? space) then lit "<li>" ++ rest else t
  | _ => t
  end.

(** The body of [lines.forEach]: the loop state is [(inList, finalHtml)]. *)
Definition eachLine (acc : bool * jsstring) (line : jsstring)
  : bool * jsstring :=
  let '(inList, finalHtml) := acc in
  if startsWith (lit "*") (trim line) then
    let finalHtml1 := if negb inList then finalHtml ++ lit "<ul>"
                      else finalHtml in
    (true, finalHtml1 ++ (replaceBullet (trim line) ++ lit "</li>"))
  else
    let finalHtml1 := if inList then finalHtml ++ lit "</ul>"
                      else finalHtml in
    (false,
     if negb (JS.eqb (trim line) [])
     then finalHtml1 ++ (lit "<p>" ++ line ++ lit "</p>")
     else finalHtml1).

(** The element returned: a [div] whose inner HTML is set verbatim. *)
Inductive element : Type :=
| div_dangerouslySetInnerHTML (__html : jsstring).

(** [None] is a missing ([null]/[undefined]) argument or result. *)
Definition renderMarkdown (markdownText : option jsstring)
  : option element :=
  match markdownText with
  | None => None
  | Some text =>
      if falsy text then None
      else
        let html := replaceStrong 0 text in
        let lines := split newline html in
        let '(inList, finalHtml) := fold_left eachLine lines (false, []) in
        let finalHtml := if inList then finalHtml ++ lit "</ul>"
                         else finalHtml in
        Some (div_dangerouslySetInnerHTML finalHtml)
  end.

(** *** The markup the renderer itself emits

    The same loop, recording each append to [finalHtml] as one piece
    instead of concatenating at once. *)
Inductive piece : Type :=
| UlOpen                       (* "<ul>" *)
| UlClose                      (* "</ul>" *)
| Item (trimmed : jsstring)    (* bullet replaced, then "</li>" *)
| Para (line : jsstring).      (* "<p>" line "</p>" *)

Definition html_of (p : piece) : jsstring :=
  match p with
  | UlOpen => lit "<ul>"
  | UlClose => lit "</ul>"
  | Item t => replaceBullet t ++ lit "</li>"
  | Para l => lit "<p>" ++ l ++ lit "</p>"
  end.

Definition flatten (ps : list piece) : jsstring := flat_map html_of ps.

Definition emitLine (acc : bool * list piece) (line : jsstring)
  : bool * list piece :=
  let '(inList, out) := acc in
  if startsWith (lit "*") (trim line) then
    (true, (if negb inList then out ++ [UlOpen] else out)
             ++ [Item (trim line)])
  else
    let out1 := if inList then out ++ [UlClose] else out in
    (false,
     if negb (JS.eqb (trim line) []) then out1 ++ [Para line] else out1).

Definition emitted (text : jsstring) : list piece :=
  let '(inList, out) :=
    fold_left emitLine (split newline (replaceStrong 0 text)) (false, []) in
  if inList then out ++ [UlClose] else out.

(** Reading the emitted pieces left to right with the flag "a list is
    open": [<ul>] only when none is open, [</ul>] and items only
    inside one, paragraphs only outside.  [None] on a violation. *)
Fixpoint ulRun (open : bool) (ps : list piece) : option bool :=
  match ps with
  | [] => Some open
  | UlOpen :: r => if open then None else ulRun true r
  | UlClose :: r => if open then ulRun false r else None
  | Item _ :: r => if open then ulRun true r else None
  | Para _ :: r => if open then None else ulRun false r
  end.

(** Every opened list is closed: the reading succeeds and ends with
    no list open. *)
Definition ulClosed (ps : list piece) : Prop := ulRun false ps = Some false.

Definition countOpen (ps : list piece) : nat :=
  List.length (filter (fun p => match p with UlOpen => true | _ => false end) ps).
Definition countClose (ps : list piece) : nat :=
  List.length (filter (fun p => match p with UlClose => true | _ => false end) ps).

End Markdown.

(* ================================================================== *)
(** ** The component: state cells, HTTP traffic, handlers as programs *)
(* ================================================================== *)

Module Client.

(** A [File] picked in the file input. *)
Record File : Type := mkFile { name : jsstring; size : N }.

(** *** JSON payloads, typed as the client reads them.  A field that
    may be absent is an [option]; counts are integers. *)

(** Body of [GET /status]; [POST /index] of the earlier revision
    answers with the same fields. *)
Module StatusData.
Record t : Type := mk {
  status : option jsstring;
  indexed_concepts : option Z;
  message : option jsstring;
  example_queries : option (list jsstring)   (* [Some] iff an array *)
}.
End StatusData.

Module FilesData.
Record t : Type := mk { files : option (list jsstring) }.
End FilesData.

Module ContextItem.
Record t : Type := mk {
  sheet : jsstring; metric : jsstring; snippet : jsstring }.
End ContextItem.

Module SearchData.
Record t : Type := mk {
  query : jsstring;
  result : option jsstring;
  context : list ContextItem.t }.
End SearchData.

(** Body of an error response ([{}] when it cannot be parsed). *)
Module ErrorData.
Record t : Type := mk {
  detail : option jsstring; message : option jsstring }.
Definition empty : t := mk None None.
End ErrorData.

(** How an awaited promise settles; a rejection carries [err.message]. *)
Inductive promise (A : Type) : Type :=
| Rejects (message : jsstring)
| Resolves (value : A).
Arguments Rejects {A} message.
Arguments Resolves {A} value.

(** What [await fetch(...)] yields, with the bodies read afterwards:
    [res.json()] on either branch, [res.text()] on an error response. *)
Inductive response (A : Type) : Type :=
| NetworkError (message : jsstring)                (* fetch rejects *)
| HttpError (json : promise ErrorData.t) (text : promise jsstring)
                                                   (* res.ok is false *)
| HttpOk (json : promise A).                       (* res.ok is true *)
Arguments NetworkError {A} message.
Arguments HttpError {A} json text.
Arguments HttpOk {A} json.

(** The requests the component sends to [API_BASE_URL]. *)
Inductive request : Type :=
| GET_status
| GET_files
| POST_reset
| POST_index (formData : list File)
| POST_search (body : jsstring).

(** Requests that only read the backend. *)
Definition isRead (r : request) : bool :=
  match r with
  | GET_status | GET_files => true
  | _ => false
  end.

(** The [useState] cells of [App]. *)
Record State : Type := mkState {
  query : jsstring;
  result : option SearchData.t;
  loading : bool;
  error : option jsstring;
  showContext : bool;
  filesToUpload : list File;
  indexing : bool;
  indexReady : bool;
  indexMessage : jsstring;
  indexedConcepts : Z;
  uploadedFiles : list jsstring;
  exampleQueries : list jsstring
}.

(** The initial values passed to [useState] (the same in both revisions). *)
Definition initial : State :=
  mkState [] None false None false [] false false
    (lit "Please upload spreadsheets to start.") 0%Z []
    [ lit "Who is the best performer in the East region?";
      lit "What is the Total Revenue for Year 1?";
      lit "What is the Net Profit for Year 3?";
      lit "Which region has the highest churn?";
      lit "Show me the top 3 customers by revenue." ].

(** A handler run: its return value, the state after its setter calls,
    and the requests it issued, in order. *)
Definition handler (A : Type) : Type := State -> A * State * list request.

Definition ret {A : Type} (a : A) : handler A := fun st => (a, st, []).

Definition bind {A B : Type} (m : handler A) (k : A -> handler B)
  : handler B :=
  fun st =>
    let '(a, st1, sent1) := m st in
    let '(b, st2, sent2) := k a st1 in
    (b, st2, sent1 ++ sent2).

(** Reading a cell (the value the handler's closure sees). *)
Definition get {A : Type} (cell : State -> A) : handler A :=
  fun st => (cell st, st, []).

Definition modify (f : State -> State) : handler unit :=
  fun st => (tt, f st, []).

(** Issuing a request; what comes back is the handler's argument. *)
Definition fetch (r : request) : handler unit := fun st => (tt, st, [r]).

Definition returned {A : Type} (o : A * State * list request) : A :=
  fst (fst o).
Definition after {A : Type} (o : A * State * list request) : State :=
  snd (fst o).
Definition sent {A : Type} (o : A * State * list request) : list request :=
  snd o.

Declare Scope handler_scope.
Delimit Scope handler_scope with handler.
Bind Scope handler_scope with handler.
Notation "x <- m ;; k" := (bind m (fun x => k))
  (at level 61, m at next level, right associativity) : handler_scope.
Notation "m ;; k" := (bind m (fun _ => k))
  (at level 61, right associativity) : handler_scope.

(** The state setters. *)
Definition setQuery (v : jsstring) : handler unit :=
  modify (fun s => mkState v (result s) (loading s) (error s)
    (showContext s) (filesToUpload s) (indexing s) (indexReady s)
    (indexMessage s) (indexedConcepts s) (uploadedFiles s)
    (exampleQueries s)).
Definition setResult (v : option SearchData.t) : handler unit :=
  modify (fun s => mkState (query s) v (loading s) (error s)
    (showContext s) (filesToUpload s) (indexing s) (indexReady s)
    (indexMessage s) (indexedConcepts s) (uploadedFiles s)
    (exampleQueries s)).
Definition setLoading (v : bool) : handler unit :=
  modify (fun s => mkState (query s) (result s) v (error s)
    (showContext s) (filesToUpload s) (indexing s) (indexReady s)
    (indexMessage s) (indexedConcepts s) (uploadedFiles s)
    (exampleQueries s)).
Definition setError (v : option jsstring) : handler unit :=
  modify (fun s => mkState (query s) (result s) (loading s) v
    (showContext s) (filesToUpload s) (indexing s) (indexReady s)
    (indexMessage s) (indexedConcepts s) (uploadedFiles s)
    (exampleQueries s)).
Definition setShowContext (v : bool) : handler unit :=
  modify (fun s => mkState (query s) (result s) (loading s) (error s)
    v (filesToUpload s) (indexing s) (indexReady s)
    (indexMessage s) (indexedConcepts s) (uploadedFiles s)
    (exampleQueries s)).
Definition setFilesToUpload (v : list File) : handler unit :=
  modify (fun s => mkState (query s) (result s) (loading s) (error s)
    (showContext s) v (indexing s) (indexReady s)
    (indexMessage s) (indexedConcepts s) (uploadedFiles s)
    (exampleQueries s)).
Definition setIndexing (v : bool) : handler unit :=
  modify (fun s => mkState (query s) (result s) (loading s) (error s)
    (showContext s) (filesToUpload s) v (indexReady s)
    (indexMessage s) (indexedConcepts s) (uploadedFiles s)
    (exampleQueries s)).
Definition setIndexReady (v : bool) : handler unit :=
  modify (fun s => mkState (query s) (result s) (loading s) (error s)
    (showContext s) (filesToUpload s) (indexing s) v
    (indexMessage s) (indexedConcepts s) (uploadedFiles s)
    (exampleQueries s)).
Definition setIndexMessage (v : jsstring) : handler unit :=
  modify (fun s => mkState (query s) (result s) (loading s) (error s)
    (showContext s) (filesToUpload s) (indexing s) (indexReady s)
    v (indexedConcepts s) (uploadedFiles s)
    (exampleQueries s)).
Definition setIndexedConcepts (v : Z) : handler unit :=
  modify (fun s => mkState (query s) (result s) (loading s) (error s)
    (showContext s) (filesToUpload s) (indexing s) (indexReady s)
    (indexMessage s) v (uploadedFiles s)
    (exampleQueries s)).
Definition setUploadedFiles (v : list jsstring) : handler unit :=
  modify (fun s => mkState (query s) (result s) (loading s) (error s)
    (showContext s) (filesToUpload s) (indexing s) (indexReady s)
    (indexMessage s) (indexedConcepts s) v
    (exampleQueries s)).
Definition setExampleQueries (v : list jsstring) : handler unit :=
  modify (fun s => mkState (query s) (result s) (loading s) (error s)
    (showContext s) (filesToUpload s) (indexing s) (indexReady s)
    (indexMessage s) (indexedConcepts s) (uploadedFiles s)
    v).

(** [x === "literal"] on a possibly missing string field. *)
Definition strictEq (x : option jsstring) (l : jsstring) : bool :=
  match x with
  | Some s => JS.eqb s l
  | None => false
  end.

(** [data.indexed_concepts || 0]. *)
Definition orZero (n : option Z) : Z :=
  match n with
  | Some z => z
  | None => 0%Z
  end.

(** [fetchFiles] (the same text in both revisions). *)
Definition fetchFiles (rf : response FilesData.t) : handler unit :=
  (fetch GET_files ;;
   match rf with
   | NetworkError _ => setUploadedFiles []              (* catch *)
   | HttpError _ _ => ret tt                            (* if (!res.ok) return *)
   | HttpOk (Rejects _) => setUploadedFiles []          (* catch *)
   | HttpOk (Resolves data) =>
       setUploadedFiles
         (match FilesData.files data with
          | Some fs => fs
          | None => []
          end)
   end)%handler.

(** [if (Array.isArray(q) && q.length) setExampleQueries(q)]. *)
Definition adoptExampleQueries (q : option (list jsstring)) : handler unit :=
  match q with
  | Some (e :: es) => setExampleQueries (e :: es)
  | _ => ret tt
  end.

End Client.

Import Client.
Open Scope handler_scope.

(* ================================================================== *)
(** ** [src/frontend/src/App.js] *)
(* ================================================================== *)

Module App.

(** [fetchStatus]; returns [data.status], or [undefined] ([None]) on
    an early return or after the [catch]. *)
Definition fetchStatus (rs : response StatusData.t)
    (rf : response FilesData.t) : handler (option jsstring) :=
  fetch GET_status ;;
  match rs with
  | NetworkError _ | HttpOk (Rejects _) =>               (* catch (e) *)
      setIndexMessage (lit "Unable to fetch index status.") ;;
      ret None
  | HttpError _ _ => ret None                            (* if (!res.ok) return *)
  | HttpOk (Resolves data) =>
      let count := orZero (StatusData.indexed_concepts data) in
      setIndexedConcepts count ;;
      (if strictEq (StatusData.status data) (lit "ok") && (count >? 0)%Z
       then
         setIndexReady true ;;
         setIndexMessage
           (orElse (StatusData.message data)
              (lit "Index ready with " ++ ofZ count ++ lit " concepts.")) ;;
         setIndexing false
       else if strictEq (StatusData.status data) (lit "indexing")
       then
         setIndexReady false ;;
         setIndexing true ;;
         setIndexMessage
           (orElse (StatusData.message data)
              (lit "Indexing in progress... (" ++ ofZ count
                 ++ lit " rows so far)"))
       else
         setIndexReady false ;;
         setIndexMessage
           (lit "No data indexed yet. Please upload spreadsheets.")) ;;
      adoptExampleQueries (StatusData.example_queries data) ;;
      fetchFiles rf ;;
      ret (StatusData.status data)
  end.

(** The mount effect: [useEffect(() => { fetchStatus(); }, [])]. *)
Definition mount (rs : response StatusData.t) (rf : response FilesData.t)
  : handler unit :=
  fetchStatus rs rf ;; ret tt.

Definition handleFileChange (files : list File) : handler unit :=
  setFilesToUpload files.

(** The interval callback, once per tick until a tick returns ["ok"]
    ([clearInterval]); [ticks] are the answers to the successive polls,
    each taken to arrive before the next tick.  Polls whose answers
    overlap or arrive late are the [StatusArrives] events of
    [dispatch] below. *)
Fixpoint poll (ticks : list (response StatusData.t * response FilesData.t))
  : handler unit :=
  match ticks with
  | [] => ret tt
  | (rs, rf) :: later =>
      currentStatus <- fetchStatus rs rf ;;
      if strictEq currentStatus (lit "ok") then ret tt else poll later
  end.

(** [handleUploadAndIndex] up to [await fetch(.../index)]: returns
    whether the request was sent. *)
Definition handleUploadAndIndex_begin : handler bool :=
  files <- get filesToUpload ;;
  match files with
  | [] =>
      setError (Some (lit "Please select at least one Excel file (.xlsx).")) ;;
      ret false
  | _ :: _ =>
      setError None ;;
      setResult None ;;
      setIndexing true ;;
      setIndexReady false ;;
      setIndexMessage (lit "Uploading files and starting indexing...") ;;
      fetch (POST_index files) ;;
      ret true
  end.

(** [catch (err)] of [handleUploadAndIndex]. *)
Definition uploadFailed (message : jsstring) : handler unit :=
  setError (Some (if falsy message
                  then lit "An unexpected error occurred."
                  else message)) ;;
  setIndexing false.

(** [handleUploadAndIndex] after the response [ri] to [POST /index]. *)
Definition handleUploadAndIndex_then (ri : response StatusData.t)
    (ticks : list (response StatusData.t * response FilesData.t))
  : handler unit :=
  match ri with
  | NetworkError message => uploadFailed message
  | HttpError _ _ => uploadFailed (lit "Failed to start indexing.")
  | HttpOk _ => poll ticks
  end.

Definition handleUploadAndIndex (ri : response StatusData.t)
    (ticks : list (response StatusData.t * response FilesData.t))
  : handler unit :=
  requested <- handleUploadAndIndex_begin ;;
  if requested then handleUploadAndIndex_then ri ticks else ret tt.

(** [handleSearch] up to [await fetch(.../search)]. *)
Definition handleSearch_begin : handler bool :=
  q <- get query ;;
  if falsy (trim q) then ret false                 (* if (!query.trim()) return *)
  else
    setLoading true ;;
    setError None ;;
    setResult None ;;
    fetch (POST_search q) ;;
    ret true.

(** [handleSearch] after the response: [try] body, [catch], [finally]. *)
Definition handleSearch_then (r : response SearchData.t) : handler unit :=
  match r with
  | NetworkError message => setError (Some message)
  | HttpError json _ =>
      let errorData := match json with
                       | Resolves d => d
                       | Rejects _ => ErrorData.empty
                       end in
      setError (Some (orElse (ErrorData.detail errorData)
                        (lit "Search failed.")))
  | HttpOk (Rejects message) => setError (Some message)
  | HttpOk (Resolves data) =>
      setResult (Some data) ;;
      setShowContext true
  end ;;
  setLoading false.

Definition handleSearch (r : response SearchData.t) : handler unit :=
  requested <- handleSearch_begin ;;
  if requested then handleSearch_then r else ret tt.

Definition renderMarkdown := Markdown.renderMarkdown.

(** *** The controls of the rendered page *)

(** [disabled={indexing || !filesToUpload.length}] on "Upload & Index". *)
Definition uploadDisabled (st : State) : bool :=
  indexing st || match filesToUpload st with [] => true | _ => false end.

(** [disabled={loading || !indexReady}] on the query input, the submit
    button and the example chips. *)
Definition searchDisabled (st : State) : bool :=
  loading st || negb (indexReady st).

(** A click on "Upload & Index": a disabled button runs no handler. *)
Definition clickUpload_begin : handler bool :=
  off <- get uploadDisabled ;;
  if off then ret false else handleUploadAndIndex_begin.

Definition clickUpload (ri : response StatusData.t)
    (ticks : list (response StatusData.t * response FilesData.t))
  : handler unit :=
  requested <- clickUpload_begin ;;
  if requested then handleUploadAndIndex_then ri ticks else ret tt.

(** Submitting the form, which the user can only do through its two
    controls (Enter in the input, or the submit button). *)
Definition submit_begin : handler bool :=
  off <- get searchDisabled ;;
  if off then ret false else handleSearch_begin.

Definition submit (r : response SearchData.t) : handler unit :=
  requested <- submit_begin ;;
  if requested then handleSearch_then r else ret tt.

(** A click on an example chip: [setQuery(ex)]. *)
Definition clickChip (ex : jsstring) : handler unit :=
  off <- get searchDisabled ;;
  if off then ret tt else setQuery ex.

Definition toggleContext : handler unit :=
  shown <- get showContext ;;
  setShowContext (negb shown).

(** What can happen to the mounted component: user actions, and the
    arrival of an awaited response (each continuation runs to
    completion before anything else does). *)
Inductive event : Type :=
| StatusArrives (rs : response StatusData.t) (rf : response FilesData.t)
| FilesArrive (rf : response FilesData.t)
| FilesChosen (files : list File)
| UploadClicked
| IndexArrives (ri : response StatusData.t)
| QueryTyped (q : jsstring)
| ChipClicked (ex : jsstring)
| Submitted
| SearchArrives (r : response SearchData.t)
| ContextToggled.

Definition dispatch (e : event) : handler unit :=
  match e with
  | StatusArrives rs rf => fetchStatus rs rf ;; ret tt
  | FilesArrive rf => fetchFiles rf
  | FilesChosen files => handleFileChange files
  | UploadClicked => clickUpload_begin ;; ret tt
  | IndexArrives ri => handleUploadAndIndex_then ri []
  | QueryTyped q => setQuery q
  | ChipClicked ex => clickChip ex
  | Submitted => submit_begin ;; ret tt
  | SearchArrives r => handleSearch_then r
  | ContextToggled => toggleContext
  end.

(** The states the component can be in. *)
Inductive reachable : State -> Prop :=
| reach_initial : reachable initial
| reach_step (st : State) (e : event) :
    reachable st -> reachable (after (dispatch e st)).

End App.

(* ================================================================== *)
(** ** [src/unnamed/part_001]: the earlier revision of the component *)
(* ================================================================== *)

Module Legacy.

Definition fetchStatus (rs : response StatusData.t)
    (rf : response FilesData.t) : handler unit :=
  fetch GET_status ;;
  match rs with
  | NetworkError _ | HttpOk (Rejects _) =>               (* catch (e) *)
      setIndexMessage (lit "Unable to fetch index status.") ;;
      setUploadedFiles []
  | HttpError _ _ => ret tt                              (* if (!res.ok) return *)
  | HttpOk (Resolves data) =>
      let count := orZero (StatusData.indexed_concepts data) in
      setIndexedConcepts count ;;
      (if (count >? 0)%Z
       then
         setIndexReady true ;;
         setIndexMessage
           (lit "Index ready with " ++ ofZ count ++ lit " concepts.")
       else
         setIndexReady false ;;
         setIndexMessage
           (lit "No data indexed yet. Please upload spreadsheets.")) ;;
      adoptExampleQueries (StatusData.example_queries data) ;;
      fetchFiles rf
  end.

(** The mount effect: [init] posts [/reset], logs a failure, and in
    its [finally] calls [fetchStatus], whatever [/reset] answered. *)
Definition mount (reset : response unit) (rs : response StatusData.t)
    (rf : response FilesData.t) : handler unit :=
  fetch POST_reset ;;
  fetchStatus rs rf.

Definition handleFileChange (files : list File) : handler unit :=
  setFilesToUpload files.

Definition handleUploadAndIndex_begin : handler bool :=
  files <- get filesToUpload ;;
  match files with
  | [] =>
      setError (Some (lit "Please select at least one Excel file (.xlsx).")) ;;
      ret false
  | _ :: _ =>
      setError None ;;
      setResult None ;;
      setIndexing true ;;
      setIndexReady false ;;
      setIndexMessage (lit "Uploading files and indexing. Please wait...") ;;
      fetch (POST_index files) ;;
      ret true
  end.

(** [catch (err)] of [handleUploadAndIndex]. *)
Definition uploadFailed (message : jsstring) : handler unit :=
  setError (Some (if falsy message
                  then lit "An unexpected error occurred during indexing."
                  else message)) ;;
  setIndexReady false ;;
  setIndexMessage (lit "Indexing failed.") ;;
  setUploadedFiles [].

(** [data.indexed_concepts > 0], false when the field is missing. *)
Definition positive (n : option Z) : bool :=
  match n with
  | Some z => (z >? 0)%Z
  | None => false
  end.

(** After the response [ri] to [POST /index]: the [try] body, the
    [catch] and the [finally]. *)
Definition handleUploadAndIndex_then (ri : response StatusData.t)
    (rf : response FilesData.t) : handler unit :=
  match ri with
  | NetworkError message => uploadFailed message
  | HttpError (Resolves errData) _ =>
      uploadFailed
        (orElse (ErrorData.detail errData)
           (orElse (ErrorData.message errData) (lit "Indexing failed.")))
  | HttpError (Rejects _) (Resolves text) =>
      uploadFailed (if falsy text then lit "Indexing failed." else text)
  | HttpError (Rejects _) (Rejects message) => uploadFailed message
  | HttpOk (Rejects message) => uploadFailed message
  | HttpOk (Resolves data) =>
      if strictEq (StatusData.status data) (lit "success")
         && positive (StatusData.indexed_concepts data)
      then
        setIndexedConcepts (orZero (StatusData.indexed_concepts data)) ;;
        setIndexReady true ;;
        setIndexMessage
          (orElse (StatusData.message data)
             (lit "Indexing complete. Indexed "
                ++ ofZ (orZero (StatusData.indexed_concepts data))
                ++ lit " concepts.")) ;;
        adoptExampleQueries (StatusData.example_queries data) ;;
        fetchFiles rf
      else
        setIndexReady false ;;
        setIndexMessage
          (orElse (StatusData.message data)
             (lit "Indexing did not produce any indexed concepts.")) ;;
        setUploadedFiles []
  end ;;
  setIndexing false.

Definition handleUploadAndIndex (ri : response StatusData.t)
    (rf : response FilesData.t) : handler unit :=
  requested <- handleUploadAndIndex_begin ;;
  if requested then handleUploadAndIndex_then ri rf else ret tt.

Definition notReadyMessage : jsstring :=
  lit "Index is not ready yet. Please upload and index spreadsheets.".

Definition handleSearch_begin : handler bool :=
  q <- get query ;;
  if falsy (trim q) then ret false                 (* if (!query.trim()) return *)
  else
    ready <- get indexReady ;;
    if negb ready then
      setError (Some notReadyMessage) ;;
      ret false
    else
      setLoading true ;;
      setError None ;;
      setResult None ;;
      fetch (POST_search q) ;;
      ret true.

(** [catch (err)] of [handleSearch]. *)
Definition searchFailed (message : jsstring) : handler unit :=
  setError (Some (if falsy message
                  then lit "An unexpected error occurred during search."
                  else message)).

Definition handleSearch_then (r : response SearchData.t) : handler unit :=
  match r with
  | NetworkError message => searchFailed message
  | HttpError json _ =>
      let errorData := match json with
                       | Resolves d => d
                       | Rejects _ => ErrorData.empty
                       end in
      searchFailed (orElse (ErrorData.detail errorData)
                      (lit "Failed to fetch search result."))
  | HttpOk (Rejects message) => searchFailed message
  | HttpOk (Resolves data) =>
      setResult (Some data) ;;
      setShowContext true
  end ;;
  setLoading false.

Definition handleSearch (r : response SearchData.t) : handler unit :=
  requested <- handleSearch_begin ;;
  if requested then handleSearch_then r else ret tt.

Definition renderMarkdown := Markdown.renderMarkdown.

(** *** The controls of the rendered page *)

Definition uploadDisabled (st : State) : bool :=
  indexing st || match filesToUpload st with [] => true | _ => false end.

Definition searchDisabled (st : State) : bool :=
  loading st || negb (indexReady st).

Definition clickUpload_begin : handler bool :=
  off <- get uploadDisabled ;;
  if off then ret false else handleUploadAndIndex_begin.

Definition submit_begin : handler bool :=
  off <- get searchDisabled ;;
  if off then ret false else handleSearch_begin.

(** A chip: [setQuery(ex); if (indexReady && !loading) handleSearch(..)].
    The [handleSearch] called is the closure of the current render, so
    it still reads the query as it was before [setQuery]. *)
Definition clickChip_begin (ex : jsstring) : handler bool :=
  off <- get searchDisabled ;;
  if off then ret false
  else
    ready <- get indexReady ;;
    busy <- get loading ;;
    requested <- (if ready && negb busy then handleSearch_begin
                  else ret false) ;;
    setQuery ex ;;
    ret requested.

Definition toggleContext : handler unit :=
  shown <- get showContext ;;
  setShowContext (negb shown).

(** The component together with the number of [POST /index] requests
    it has sent and not yet seen answered. *)
Record world : Type := mkWorld { ui : State; pendingIndex : nat }.

Inductive event : Type :=
| StatusArrives (rs : response StatusData.t) (rf : response FilesData.t)
| FilesArrive (rf : response FilesData.t)
| FilesChosen (files : list File)
| UploadClicked
| IndexArrives (ri : response StatusData.t) (rf : response FilesData.t)
| QueryTyped (q : jsstring)
| ChipClicked (ex : jsstring)
| Submitted
| SearchArrives (r : response SearchData.t)
| ContextToggled.

(** One event; [None] when it cannot happen (a response to a request
    that is not pending). *)
Definition advance (e : event) (w : world) : option world :=
  let st := ui w in
  let n := pendingIndex w in
  match e with
  | StatusArrives rs rf => Some (mkWorld (after (fetchStatus rs rf st)) n)
  | FilesArrive rf => Some (mkWorld (after (fetchFiles rf st)) n)
  | FilesChosen files => Some (mkWorld (after (handleFileChange files st)) n)
  | UploadClicked =>
      let o := clickUpload_begin st in
      Some (mkWorld (after o) (if returned o then S n else n))
  | IndexArrives ri rf =>
      match n with
      | O => None
      | S m => Some (mkWorld (after (handleUploadAndIndex_then ri rf st)) m)
      end
  | QueryTyped q => Some (mkWorld (after (setQuery q st)) n)
  | ChipClicked ex => Some (mkWorld (after (clickChip_begin ex st)) n)
  | Submitted => Some (mkWorld (after (submit_begin st)) n)
  | SearchArrives r => Some (mkWorld (after (handleSearch_then r st)) n)
  | ContextToggled => Some (mkWorld (after (toggleContext st)) n)
  end.

Inductive reachable : world -> Prop :=
| reach_initial : reachable (mkWorld initial 0)
| reach_step (w w' : world) (e : event) :
    reachable w -> advance e w = Some w' -> reachable w'.

End Legacy.

(* ================================================================== *)
(** ** The Vector Index contract (spec section 4.3) *)
(* ================================================================== *)

Module VectorIndex.
Section Retrieval.

(** Embedding vectors and similarity scores: the metric is left open
    (cosine similarity is only recommended); [atLeast a b] reads
    "score [a] is at least score [b]". *)
Variable vector : Type.
Variable score : Type.
Variable similarity : vector -> vector -> score.
Variable atLeast : score -> score -> bool.

(** Modelled from the spec: the Concept of section 3; the backend that
    stores concepts is not among the sources. *)
Record Concept : Type := mkConcept {
  id : jsstring;
  sheet : jsstring;
  metric : jsstring;
  value : jsstring;
  snippet : jsstring;
  source_file : jsstring;
  embedding : vector
}.

(** Modelled from the spec: the Vector Index of section 4.3, whose
    implementation is not among the sources; the concepts of the
    active generation, in insertion order. *)
Definition index : Type := list Concept.

(** Modelled from the spec: [upsert] (the store is missing from the
    sources), append-only within a generation. *)
Definition upsert (new : list Concept) (idx : index) : index := idx ++ new.

(** Modelled from the spec: [clear] (the store is missing from the
    sources) discards all concepts. *)
Definition clear (idx : index) : index := [].

(** Modelled from the spec: an element of the ordered sequence of
    (concept, score) that [query] returns (the store is missing from
    the sources), kept with the position at which the concept was
    inserted. *)
Record hit : Type := mkHit {
  position : nat;
  found : Concept;
  similarityTo : score
}.

(** Modelled from the spec: scoring every stored concept against the
    query vector (the store is missing from the sources). *)
Fixpoint scoredFrom (q : vector) (n : nat) (idx : index) : list hit :=
  match idx with
  | [] => []
  | c :: later =>
      mkHit n c (similarity q (embedding c)) :: scoredFrom q (S n) later
  end.

(** Modelled from the spec: placing a concept among later-inserted
    ones already ordered (the store is missing from the sources); it
    goes before the first one it is at least as similar as, so on a
    tie the earlier-indexed concept wins. *)
Fixpoint place (h : hit) (l : list hit) : list hit :=
  match l with
  | [] => [h]
  | x :: r =>
      if atLeast (similarityTo h) (similarityTo x) then h :: l
      else x :: place h r
  end.

(** Modelled from the spec: all concepts by descending similarity
    (the store is missing from the sources). *)
Definition ranked (q : vector) (idx : index) : list hit :=
  fold_right place [] (scoredFrom q 0 idx).

(** Modelled from the spec: the up to [k] nearest neighbours (the
    store is missing from the sources). *)
Definition nearest (q : vector) (k : nat) (idx : index) : list hit :=
  firstn k (ranked q idx).

(** Modelled from the spec: [query(vector, k)], an ordered sequence of
    (concept, score) (the store is missing from the sources). *)
Definition query (q : vector) (k : nat) (idx : index)
  : list (Concept * score) :=
  map (fun h => (found h, similarityTo h)) (nearest q k idx).

(** [a] comes before [b] in a result: [a] is at least as similar as
    [b], and on a tie [a] was inserted earlier. *)
Definition outranks (a b : hit) : Prop :=
  atLeast (similarityTo a) (similarityTo b) = true
  /\ (atLeast (similarityTo b) (similarityTo a) = true ->
      (position a < position b)%nat).

(** A hit is a concept of the index with its own score. *)
Definition genuine (q : vector) (idx : index) (h : hit) : Prop :=
  nth_error idx (position h) = Some (found h)
  /\ similarityTo h = similarity q (embedding (found h)).

End Retrieval.

Arguments mkConcept {vector} id sheet metric value snippet source_file embedding.
Arguments id {vector} c.
Arguments sheet {vector} c.
Arguments metric {vector} c.
Arguments value {vector} c.
Arguments snippet {vector} c.
Arguments source_file {vector} c.
Arguments embedding {vector} c.
Arguments upsert {vector} new idx.
Arguments clear {vector} idx.
Arguments mkHit {vector score} position found similarityTo.
Arguments position {vector score} h.
Arguments found {vector score} h.
Arguments similarityTo {vector score} h.
Arguments scoredFrom {vector score} similarity q n idx.
Arguments place {vector score} atLeast h l.
Arguments ranked {vector score} similarity atLeast q idx.
Arguments nearest {vector score} similarity atLeast q k idx.
Arguments query {vector score} similarity atLeast q k idx.
Arguments outranks {vector score} atLeast a b.
Arguments genuine {vector score} similarity q idx h.

End VectorIndex.

(* ================================================================== *)
(** ** What is observed of a run, and the scenarios used below *)
(* ================================================================== *)

(** A handler run ends with an error to display. *)
Definition reportsError {A : Type} (o : A * State * list request) : Prop :=
  exists message : jsstring, error (after o) = Some message.

(** The index is shown ready only with a positive concept count. *)
Definition readyMeansIndexed (st : State) : Prop :=
  indexReady st = true -> (indexedConcepts st > 0)%Z.

(** At most one [POST /index] is pending, and while one is the
    indexing flag is up. *)
Definition oneIngest (w : Legacy.world) : Prop :=
  (Legacy.pendingIndex w <= 1)%nat
  /\ (Legacy.pendingIndex w = 1%nat -> indexing (Legacy.ui w) = true).

(** The messages the component shows. *)
Definition selectAFile : jsstring :=
  lit "Please select at least one Excel file (.xlsx).".

Definition nothingIndexed : jsstring :=
  lit "Indexing did not produce any indexed concepts.".

Definition noDataYet : jsstring :=
  lit "No data indexed yet. Please upload spreadsheets.".

(** Whether a list is open, as a count. *)
Definition openCount (o : bool) : nat := if o then 1%nat else 0%nat.

(** The component just mounted, with [q] typed into the query box. *)
Definition typed (q : jsstring) : State := after (setQuery q initial).

(** The same with the index shown ready for [n] concepts. *)
Definition readyWith (n : Z) (q : jsstring) : State :=
  after ((setIndexedConcepts n ;; setIndexReady true) (typed q)).

(** The component while an upload is being indexed. *)
Definition busyIndexing : State :=
  after ((setFilesToUpload [mkFile (lit "book.xlsx") 9] ;; setIndexing true)
           initial).

(** One-dimensional embeddings scored by negated distance. *)
Definition closeness (q v : Z) : Z := (- Z.abs (q - v))%Z.

Definition concept1 (name : string) (e : Z) : VectorIndex.Concept Z :=
  VectorIndex.mkConcept (lit name) (lit "Dashboard") (lit "Revenue")
    (lit "350000") (lit "Revenue: 350000") (lit "book.xlsx") e.

(** Four concepts; seen from [2], the last three are equally close. *)
Definition demoIndex : VectorIndex.index Z :=
  [concept1 "far" 5; concept1 "first" 1; concept1 "second" 3;
   concept1 "third" 1].

(* ================================================================== *)
(** ** Further observations: rendered lines, the page, requests in flight *)
(* ================================================================== *)

(** A piece that carries a line of the answer (not a list tag). *)
Definition isContent (p : Markdown.piece) : bool :=
  match p with
  | Markdown.Item _ | Markdown.Para _ => true
  | _ => false
  end.

(** What one line of the answer contributes: an item when, trimmed, it
    starts with an asterisk; a paragraph when it is not blank; nothing
    otherwise. *)
Definition pieceOf (line : jsstring) : list Markdown.piece :=
  if startsWith (lit "*") (trim line) then [Markdown.Item (trim line)]
  else if negb (JS.eqb (trim line) []) then [Markdown.Para line]
  else [].

Definition notStar (c : N) : bool := negb (c =? Markdown.star).

(** Text that can stand between [**] and [**] on one line. *)
Definition plainChar (c : N) : bool :=
  notStar c && negb (isLineTerminator c).

Definition notBlank (line : jsstring) : bool := negb (JS.eqb (trim line) []).

(** [{error && <div className="status-card status-error">...}]: the
    error card is rendered when [error] is a non-empty string. *)
Definition errorShown (st : State) : bool :=
  match error st with
  | Some (_ :: _) => true
  | _ => false
  end.

(** The component together with the number of [POST /search]
    requests it has sent and not yet seen answered. *)
Module InFlight.

Record world : Type := mk { page : State; searches : nat }.

(** A step that may send a search. *)
Definition mayAsk (begin : handler bool) (w : world) : world :=
  let o := begin (page w) in
  mk (after o) (if returned o then S (searches w) else searches w).

(** The answer to a pending search arrives. *)
Definition answered (continue : handler unit) (w : world) : option world :=
  match searches w with
  | O => None
  | S m => Some (mk (after (continue (page w))) m)
  end.

(** The current revision: searches start at the form only. *)
Definition stepApp (e : App.event) (w : world) : option world :=
  match e with
  | App.Submitted => Some (mayAsk App.submit_begin w)
  | App.SearchArrives r => answered (App.handleSearch_then r) w
  | _ => Some (mk (after (App.dispatch e (page w))) (searches w))
  end.

(** The earlier revision: searches start at the form and at the chips. *)
Definition stepLegacy (e : Legacy.event) (w : world) : option world :=
  match e with
  | Legacy.Submitted => Some (mayAsk Legacy.submit_begin w)
  | Legacy.ChipClicked ex => Some (mayAsk (Legacy.clickChip_begin ex) w)
  | Legacy.SearchArrives r => answered (Legacy.handleSearch_then r) w
  | Legacy.IndexArrives ri rf =>
      Some (mk (after (Legacy.handleUploadAndIndex_then ri rf (page w)))
              (searches w))
  | _ =>
      match Legacy.advance e (Legacy.mkWorld (page w) 0) with
      | Some b => Some (mk (Legacy.ui b) (searches w))
      | None => None
      end
  end.

Inductive reachableApp : world -> Prop :=
| app_initial : reachableApp (mk initial 0)
| app_step (w w' : world) (e : App.event) :
    reachableApp w -> stepApp e w = Some w' -> reachableApp w'.

Inductive reachableLegacy : world -> Prop :=
| legacy_initial : reachableLegacy (mk initial 0)
| legacy_step (w w' : world) (e : Legacy.event) :
    reachableLegacy w -> stepLegacy e w = Some w' -> reachableLegacy w'.

(** At most one search is pending, and while one is the page shows
    [loading]. *)
Definition oneSearch (w : world) : Prop :=
  (searches w <= 1)%nat /\ (searches w = 1%nat -> loading (page w) = true).

End InFlight.

(* ================================================================== *)
(** ** Occurrences of a tag in the rendered HTML *)
(* ================================================================== *)

(** How many times [pattern] occurs in [s], overlapping or not. *)
Fixpoint occurrences (pattern s : jsstring) : nat :=
  match s with
  | [] => 0%nat
  | _ :: tl =>
      ((if startsWith pattern s then 1 else 0) + occurrences pattern tl)%nat
  end.

(* ================================================================== *)
(** ** The current revision with its uploads in flight *)
(* ================================================================== *)

(** The component of [src/frontend/src/App.js] together with the
    number of [POST /index] requests sent and not yet answered. *)
Module AppUploads.

Record world : Type := mk { page : State; uploads : nat }.

Definition step (e : App.event) (w : world) : option world :=
  match e with
  | App.UploadClicked =>
      let o := App.clickUpload_begin (page w) in
      Some (mk (after o) (if returned o then S (uploads w) else uploads w))
  | App.IndexArrives ri =>
      match uploads w with
      | O => None
      | S m =>
          Some (mk (after (App.handleUploadAndIndex_then ri [] (page w))) m)
      end
  | _ => Some (mk (after (App.dispatch e (page w))) (uploads w))
  end.

Fixpoint run (events : list App.event) (w : world) : option world :=
  match events with
  | [] => Some w
  | e :: later =>
      match step e w with
      | Some w' => run later w'
      | None => None
      end
  end.

End AppUploads.

(* ================================================================== *)
(** ** The Index Lifecycle Manager contract (spec sections 3, 4.4, 4.5, 6) *)
(* ================================================================== *)

Module Lifecycle.

(** Modelled from the spec: the status of the Index State (section 3);
    the backend that owns it is not among the sources. *)
Inductive Status : Type := Empty | Indexing | Ready | Error.

(** Modelled from the spec: the error taxonomy of section 7 (the
    backend that raises them is not among the sources). *)
Inductive ErrorKind : Type :=
| ExtractionError
| ProviderError
| AlreadyIndexingError
| IndexNotReadyError
| InvalidQueryError
| SynthesisError.

(** Modelled from the spec: a File Registry Entry (section 3); the
    registry is not among the sources. *)
Record FileEntry : Type := mkFileEntry {
  filename : jsstring;
  size : N;
  associated_generation_id : nat
}.

(** Modelled from the spec: what the Index Lifecycle Manager owns
    (sections 3 and 4.4; the manager is not among the sources): the
    Index State, the active index's metadata and the File Registry. *)
Record Manager : Type := mkManager {
  status : Status;
  progress_count : nat;
  message : jsstring;
  concept_count : nat;
  generation_id : nat;
  registry : list FileEntry
}.

(** Modelled from the spec: the snapshot [status()] returns (sections
    4.4 and 5; the manager is not among the sources). *)
Record Snapshot : Type := mkSnapshot {
  seen_status : Status;
  seen_progress : nat;
  seen_message : jsstring;
  seen_count : nat
}.

(** Modelled from the spec: reading the current snapshot (the manager
    is not among the sources). *)
Definition snapshot (m : Manager) : Snapshot :=
  mkSnapshot (status m) (progress_count m) (message m) (concept_count m).

(** Modelled from the spec: the answer of section 4.5 (the pipeline is
    not among the sources). *)
Record Answer : Type := mkAnswer {
  asked : jsstring;
  result : jsstring;
  context : list ContextItem.t
}.

(** Modelled from the spec: the invocation surface of section 6 with
    the transitions of section 4.4 behind [ingest] (the backend is not
    among the sources). *)
Inductive op : Type :=
| start_ingest (files : list FileEntry)
| record_progress (n : nat)
| register_file (entry : FileEntry)
| complete (total_count : nat)
| fail (reason : jsstring)
| reset
| get_status
| list_files
| answer (query : jsstring).

(** Modelled from the spec: what an operation gives back (the backend
    is not among the sources). *)
Inductive outcome : Type :=
| Done
| Rejected (kind : ErrorKind)
| Seen (s : Snapshot)
| Listed (files : list FileEntry)
| Answered (a : Answer).

Definition is_indexing (s : Status) : bool :=
  match s with Indexing => true | _ => false end.

Definition is_ready (s : Status) : bool :=
  match s with Ready => true | _ => false end.

Section Operations.

(** The wording of the ready message ("a message summarizing it") and
    steps 3 to 6 of the pipeline (embedding, retrieval, synthesis),
    which the spec leaves to the adapters. *)
Variable summary : nat -> jsstring.
Variable pipeline : jsstring -> Manager -> ErrorKind + Answer.

(** Modelled from the spec: the transitions of section 4.4, the reset
    rule of section 5 and the query gate of section 4.5 (the backend
    is not among the sources). *)
Definition invoke (o : op) (m : Manager) : outcome * Manager :=
  match o with
  | start_ingest _ =>
      if is_indexing (status m) then (Rejected AlreadyIndexingError, m)
      else (Done,
            mkManager Indexing 0 (message m) (concept_count m)
              (S (generation_id m)) (registry m))
  | record_progress n =>
      (Done,
       mkManager (status m) (progress_count m + n) (message m)
         (concept_count m) (generation_id m) (registry m))
  | register_file entry =>
      (Done,
       mkManager (status m) (progress_count m) (message m) (concept_count m)
         (generation_id m) (registry m ++ [entry]))
  | complete total_count =>
      match total_count with
      | O =>
          (Done,
           mkManager Error (progress_count m)
             (lit "no indexable concepts found") 0 (generation_id m)
             (registry m))
      | S _ =>
          (Done,
           mkManager Ready (progress_count m) (summary total_count)
             total_count (generation_id m) (registry m))
      end
  | fail reason =>
      (Done,
       mkManager Error (progress_count m) reason (concept_count m)
         (generation_id m) (registry m))
  | reset =>
      if is_indexing (status m) then (Rejected IndexNotReadyError, m)
      else (Done, mkManager Empty 0 [] 0 (generation_id m) [])
  | get_status => (Seen (snapshot m), m)
  | list_files => (Listed (registry m), m)
  | answer query =>
      if JS.eqb (trim query) [] then (Rejected InvalidQueryError, m)
      else if negb (is_ready (status m)) then (Rejected IndexNotReadyError, m)
      else match pipeline query m with
           | inl kind => (Rejected kind, m)
           | inr a => (Answered a, m)
           end
  end.

(** Modelled from the spec: a sequence of invocations, in order (the
    backend is not among the sources). *)
Fixpoint run (ops : list op) (m : Manager) : list outcome * Manager :=
  match ops with
  | [] => ([], m)
  | o :: later =>
      let '(out, m1) := invoke o m in
      let '(outs, m2) := run later m1 in
      (out :: outs, m2)
  end.

End Operations.

(** Neither an ingest step nor a reset: status polls, file listings
    and queries. *)
Definition readsOnly (o : op) : bool :=
  match o with
  | get_status | list_files | answer _ => true
  | _ => false
  end.

(** Whatever was seen by a [status()] call is the snapshot [s]. *)
Definition sees (s : Snapshot) (o : outcome) : Prop :=
  match o with
  | Seen s' => s' = s
  | _ => True
  end.

End Lifecycle.

(* ================================================================== *)
(** ** Proof automation for handler runs *)
(* ================================================================== *)

(** Unfolds the handler combinators, the setters and the state
    projections, leaving string literals and payload fields folded. *)
Ltac run_handlers :=
  cbv beta iota zeta delta
    [bind ret get modify fetch after sent returned fst snd app
     setQuery setResult setLoading setError setShowContext setFilesToUpload
     setIndexing setIndexReady setIndexMessage setIndexedConcepts
     setUploadedFiles setExampleQueries adoptExampleQueries fetchFiles
     query result loading error showContext filesToUpload indexing
     indexReady indexMessage indexedConcepts uploadedFiles exampleQueries
     andb orb negb forallb isRead Legacy.ui Legacy.pendingIndex].

(** Case analysis on what a handler branches on, innermost first, so
    that each run reduces to its final triple. *)
Ltac break_matches :=
  repeat (run_handlers;
          match goal with
          | |- context [match ?x with _ => _ end] => is_var x; destruct x
          | |- context [match ?x with _ => _ end] =>
              lazymatch x with
              | context [match _ with _ => _ end] => fail
              | _ => destruct x eqn:?
              end
          end);
  run_handlers.

(** Closes a goal [readyMeansIndexed _] once the run is reduced. *)
Ltac close_ready :=
  cbn [indexReady indexedConcepts]; unfold readyMeansIndexed in *;
  cbn [indexReady indexedConcepts] in *;
  try (intro;
       first [ discriminate
             | solve [auto]
             | match goal with
               | H : Legacy.positive ?n = true |- _ =>
                   destruct n; cbn in H |- *;
                   [apply Z.gtb_lt in H; lia | discriminate H]
               end
             | match goal with
               | H : (_ >? 0)%Z = true |- _ => apply Z.gtb_lt in H; lia
               end ]).

(* ================================================================== *)
(** * Properties *)
(* ================================================================== *)

Lemma jseqb_eq (a b : jsstring) : JS.eqb a b = true <-> a = b.
Proof.
  unfold JS.eqb. destruct (list_eq_dec N.eq_dec a b); split; congruence.
Qed.

Lemma jseqb_refl (a : jsstring) : JS.eqb a a = true.
Proof. now apply jseqb_eq. Qed.

(* ------------------------------------------------------------------ *)
(** ** renderMarkdown *)
(* ------------------------------------------------------------------ *)

Section MarkdownFacts.
Import Markdown.

Lemma flatten_app (a b : list piece) :
  flatten (a ++ b) = flatten a ++ flatten b.
Proof. unfold flatten. apply flat_map_app. Qed.

Lemma flatten_one (p : piece) : flatten [p] = html_of p.
Proof. unfold flatten. simpl. apply app_nil_r. Qed.

(** One line: appending to the string is appending the flattened
    pieces. *)
Lemma eachLine_emitLine (inList : bool) (out : list piece) (line : jsstring) :
  eachLine (inList, flatten out) line
  = (fst (emitLine (inList, out) line),
     flatten (snd (emitLine (inList, out) line))).
Proof.
  unfold eachLine, emitLine.
  destruct (startsWith (lit "*") (trim line)).
  - destruct inList; simpl; rewrite ?flatten_app, ?flatten_one; reflexivity.
  - destruct inList, (JS.eqb (trim line) []); simpl;
      rewrite ?flatten_app, ?flatten_one; reflexivity.
Qed.

Lemma forEach_emitLine (lines : list jsstring) :
  forall (inList : bool) (out : list piece),
    fold_left eachLine lines (inList, flatten out)
    = (fst (fold_left emitLine lines (inList, out)),
       flatten (snd (fold_left emitLine lines (inList, out)))).
Proof.
  induction lines as [|line lines IH]; intros inList out.
  - reflexivity.
  - cbn [fold_left]. rewrite eachLine_emitLine.
    destruct (emitLine (inList, out) line) as [b o]. cbn [fst snd].
    apply IH.
Qed.

Lemma renderMarkdown_emitted (c : N) (text : jsstring) :
  renderMarkdown (Some (c :: text))
  = Some (div_dangerouslySetInnerHTML (flatten (emitted (c :: text)))).
Proof.
  unfold renderMarkdown, emitted. cbn [falsy].
  change (@nil N) with (flatten []) at 1.
  rewrite forEach_emitLine.
  destruct (fold_left emitLine _ (false, [])) as [b o]. cbn [fst snd].
  destruct b; rewrite ?flatten_app, ?flatten_one; reflexivity.
Qed.

Lemma ulRun_app (a b : list piece) :
  forall o : bool,
    ulRun o (a ++ b)
    = match ulRun o a with
      | Some o' => ulRun o' b
      | None => None
      end.
Proof.
  induction a as [|p a IH]; intro o; [reflexivity|].
  destruct p, o; cbn [ulRun app]; auto.
Qed.

(** The loop invariant of [forEach]: what was emitted so far reads
    well, and [inList] is exactly "a list is open". *)
Lemma emitLine_ulRun (inList : bool) (out : list piece) (line : jsstring) :
  ulRun false out = Some inList ->
  ulRun false (snd (emitLine (inList, out) line))
  = Some (fst (emitLine (inList, out) line)).
Proof.
  intro H. unfold emitLine.
  destruct (startsWith (lit "*") (trim line)).
  - destruct inList; cbn [fst snd negb]; rewrite !ulRun_app, ?H; reflexivity.
  - destruct inList, (JS.eqb (trim line) []); cbn [fst snd negb];
      rewrite ?ulRun_app, ?H; reflexivity.
Qed.

Lemma forEach_ulRun (lines : list jsstring) :
  forall (inList : bool) (out : list piece),
    ulRun false out = Some inList ->
    ulRun false (snd (fold_left emitLine lines (inList, out)))
    = Some (fst (fold_left emitLine lines (inList, out))).
Proof.
  induction lines as [|line lines IH]; intros inList out H.
  - exact H.
  - cbn [fold_left].
    pose proof (emitLine_ulRun inList out line H) as H1.
    destruct (emitLine (inList, out) line) as [b o]. apply IH, H1.
Qed.

Lemma emitted_ulClosed (text : jsstring) : ulClosed (emitted text).
Proof.
  unfold ulClosed, emitted.
  pose proof (forEach_ulRun (split newline (replaceStrong 0 text))
                false [] eq_refl) as H.
  destruct (fold_left emitLine _ (false, [])) as [b o]. cbn [fst snd] in H.
  destruct b; [rewrite ulRun_app, H|]; auto.
Qed.

Lemma ulRun_counts (ps : list piece) :
  forall o o' : bool,
    ulRun o ps = Some o' ->
    (countOpen ps + openCount o = countClose ps + openCount o')%nat.
Proof.
  unfold countOpen, countClose.
  induction ps as [|p ps IH]; intros o o' H.
  - cbn in *. injection H as <-. reflexivity.
  - destruct p, o; cbn [ulRun] in H; try discriminate;
      apply IH in H; cbn [filter List.length openCount] in *; lia.
Qed.

(** C8, as stated, fails: the text of the input goes into the HTML as
    it is, so a [<ul>] written in the input is opened in the HTML and
    never closed. *)
Lemma input_ul_is_never_closed :
  renderMarkdown (Some (lit "<ul>"))
  = Some (div_dangerouslySetInnerHTML (lit "<p><ul></p>"))
  /\ occurrences (lit "<ul>") (lit "<p><ul></p>") = 1%nat
  /\ occurrences (lit "</ul>") (lit "<p><ul></p>") = 0%nat.
Proof. repeat split. Qed.

(** C8, amended. For every input, every [<ul>] that [renderMarkdown]
    itself opens is closed by it -- also the list still open after the
    last line --; it never nests one, and keeps items inside and
    paragraphs outside lists.  (The pieces are what the renderer
    appends; the text of the lines inside them is passed through as it
    is.)  A missing or empty input renders [null]. *)
Theorem renderMarkdown_closes_every_list :
  renderMarkdown None = None
  /\ renderMarkdown (Some []) = None
  /\ forall (c : N) (text : jsstring),
       renderMarkdown (Some (c :: text))
       = Some (div_dangerouslySetInnerHTML (flatten (emitted (c :: text))))
       /\ ulClosed (emitted (c :: text))
       /\ countOpen (emitted (c :: text)) = countClose (emitted (c :: text)).
Proof.
  split; [reflexivity|]. split; [reflexivity|].
  intros c text. split; [apply renderMarkdown_emitted|].
  split; [apply emitted_ulClosed|].
  pose proof (ulRun_counts _ _ _ (emitted_ulClosed (c :: text))) as H.
  cbn [openCount] in H. lia.
Qed.

End MarkdownFacts.

(** The answer of the README's example response. *)
Example renderMarkdown_bold :
  Markdown.renderMarkdown
    (Some (lit "**Revenue in Year 1: 350000** from sheet 'Dashboard'."))
  = Some (Markdown.div_dangerouslySetInnerHTML
            (lit "<p><strong>Revenue in Year 1: 350000</strong> from sheet 'Dashboard'.</p>")).
Proof. reflexivity. Qed.

(** A paragraph, then a list that is still open at the last line. *)
Example renderMarkdown_list :
  Markdown.renderMarkdown
    (Some (lit "Top:" ++ [10] ++ lit "* one" ++ [10] ++ lit "  * **two**"))
  = Some (Markdown.div_dangerouslySetInnerHTML
            (lit "<p>Top:</p><ul><li>one</li><li><strong>two</strong></li></ul>")).
Proof. reflexivity. Qed.

(** An unclosed [**] stays as it is; a line starting with it is taken
    for a list item without a bullet to replace. *)
Example renderMarkdown_unclosed :
  Markdown.renderMarkdown (Some (lit "***a** b ** c" ++ [10] ++ lit "** d"))
  = Some (Markdown.div_dangerouslySetInnerHTML
            (lit "<p><strong>*a</strong> b ** c</p><ul>** d</li></ul>")).
Proof. reflexivity. Qed.

(* ------------------------------------------------------------------ *)
(** ** Running handlers *)
(* ------------------------------------------------------------------ *)

Lemma strictEq_spec (x : option jsstring) (l : jsstring) :
  strictEq x l = true <-> x = Some l.
Proof.
  destruct x as [s|]; cbn [strictEq].
  - rewrite jseqb_eq. split; congruence.
  - split; discriminate.
Qed.

(* ------------------------------------------------------------------ *)
(** ** fetchStatus of [src/frontend/src/App.js] *)
(* ------------------------------------------------------------------ *)

(** The readiness cell after a parsed status [data]. *)
Lemma App_fetchStatus_indexReady (data : StatusData.t)
    (rf : response FilesData.t) (st : State) :
  indexReady (after (App.fetchStatus (HttpOk (Resolves data)) rf st))
  = strictEq (StatusData.status data) (lit "ok")
    && (orZero (StatusData.indexed_concepts data) >? 0)%Z.
Proof.
  unfold App.fetchStatus.
  destruct (strictEq (StatusData.status data) (lit "ok")
            && (orZero (StatusData.indexed_concepts data) >? 0)%Z);
    [|destruct (strictEq (StatusData.status data) (lit "indexing"))];
    destruct (StatusData.example_queries data) as [[|e es]|];
    destruct rf as [m|j t|[m|fd]]; reflexivity.
Qed.

Lemma App_fetchStatus_indexedConcepts (data : StatusData.t)
    (rf : response FilesData.t) (st : State) :
  indexedConcepts (after (App.fetchStatus (HttpOk (Resolves data)) rf st))
  = orZero (StatusData.indexed_concepts data).
Proof.
  unfold App.fetchStatus.
  destruct (strictEq (StatusData.status data) (lit "ok")
            && (orZero (StatusData.indexed_concepts data) >? 0)%Z);
    [|destruct (strictEq (StatusData.status data) (lit "indexing"))];
    destruct (StatusData.example_queries data) as [[|e es]|];
    destruct rf as [m|j t|[m|fd]]; reflexivity.
Qed.

(** C9. [fetchStatus] leaves [indexReady] true exactly when the parsed
    status body has [status === "ok"] and a positive
    [indexed_concepts]; a body without [indexed_concepts] counts as 0
    concepts and marks the index not ready; when no body is parsed
    ([!res.ok], or an exception) [indexReady] is not set at all. *)
Theorem fetchStatus_ready_only_when_ok_and_positive :
  forall (rs : response StatusData.t) (rf : response FilesData.t)
         (st : State),
    let st' := after (App.fetchStatus rs rf st) in
    match rs with
    | HttpOk (Resolves data) =>
        (indexReady st' = true <->
           StatusData.status data = Some (lit "ok")
           /\ exists n : Z,
                StatusData.indexed_concepts data = Some n /\ (n > 0)%Z)
        /\ (StatusData.indexed_concepts data = None ->
              indexedConcepts st' = 0%Z /\ indexReady st' = false)
    | _ => indexReady st' = indexReady st
    end.
Proof.
  intros rs rf st st'. subst st'.
  destruct rs as [m|j t|[m|data]]; try reflexivity.
  rewrite App_fetchStatus_indexReady, App_fetchStatus_indexedConcepts.
  rewrite andb_true_iff, strictEq_spec. split.
  - split.
    + intros [Hs Hc]. split; [exact Hs|].
      destruct (StatusData.indexed_concepts data) as [n|]; cbn in Hc.
      * exists n. split; [reflexivity|]. apply Z.gtb_lt in Hc. lia.
      * discriminate.
    + intros [Hs [n [Hn Hpos]]]. split; [exact Hs|].
      rewrite Hn. cbn. apply Z.gtb_lt. lia.
  - intros ->. cbn. split; [reflexivity|]. apply andb_false_r.
Qed.

Lemma App_fetchStatus_idempotent (rs : response StatusData.t)
    (rf : response FilesData.t) (st : State) :
  after (App.fetchStatus rs rf (after (App.fetchStatus rs rf st)))
  = after (App.fetchStatus rs rf st).
Proof.
  unfold App.fetchStatus.
  destruct rs as [m|j t|[m|data]]; try reflexivity.
  destruct (strictEq (StatusData.status data) (lit "ok")
            && (orZero (StatusData.indexed_concepts data) >? 0)%Z);
    [|destruct (strictEq (StatusData.status data) (lit "indexing"))];
    destruct (StatusData.example_queries data) as [[|e es]|];
    destruct rf as [m|j t|[m|fd]]; reflexivity.
Qed.

Lemma App_fetchStatus_returned (rs : response StatusData.t)
    (rf : response FilesData.t) (st : State) :
  returned (App.fetchStatus rs rf st)
  = match rs with
    | HttpOk (Resolves data) => StatusData.status data
    | _ => None
    end.
Proof.
  unfold App.fetchStatus.
  destruct rs as [m|j t|[m|data]]; try reflexivity.
  destruct (strictEq (StatusData.status data) (lit "ok")
            && (orZero (StatusData.indexed_concepts data) >? 0)%Z);
    [|destruct (strictEq (StatusData.status data) (lit "indexing"))];
    destruct (StatusData.example_queries data) as [[|e es]|];
    destruct rf as [m|j t|[m|fd]]; reflexivity.
Qed.

(** What a poll sends: [GET /status], then [GET /files] if a status
    body was parsed. *)
Lemma App_fetchStatus_sent (rs : response StatusData.t)
    (rf : response FilesData.t) (st : State) :
  sent (App.fetchStatus rs rf st)
  = match rs with
    | HttpOk (Resolves _) => [GET_status; GET_files]
    | _ => [GET_status]
    end.
Proof.
  unfold App.fetchStatus.
  destruct rs as [m|j t|[m|data]]; try reflexivity.
  destruct (strictEq (StatusData.status data) (lit "ok")
            && (orZero (StatusData.indexed_concepts data) >? 0)%Z);
    [|destruct (strictEq (StatusData.status data) (lit "indexing"))];
    destruct (StatusData.example_queries data) as [[|e es]|];
    destruct rf as [m|j t|[m|fd]]; reflexivity.
Qed.

(** On the client, a poll sends only [GET] requests (no ingest, no
    reset), what it returns depends on the backend's answer alone, and
    while the backend keeps giving the same answer every further poll
    returns the same status and leaves the same component snapshot as
    the first one. *)
Theorem fetchStatus_polling_is_an_idempotent_read :
  forall (rs : response StatusData.t) (rf : response FilesData.t)
         (st other : State) (n : nat),
    let first := App.fetchStatus rs rf st in
    let again := App.fetchStatus rs rf (after first) in
    forallb isRead (sent first) = true
    /\ returned again = returned first
    /\ returned (App.fetchStatus rs rf other) = returned first
    /\ after again = after first
    /\ Nat.iter (S n) (fun s => after (App.fetchStatus rs rf s)) st
       = after first.
Proof.
  intros rs rf st other n first again. subst first again.
  split; [|split; [|split; [|split]]].
  - rewrite App_fetchStatus_sent. destruct rs as [m|j t|[m|data]]; reflexivity.
  - now rewrite !App_fetchStatus_returned.
  - now rewrite !App_fetchStatus_returned.
  - apply App_fetchStatus_idempotent.
  - induction n as [|n IH]; [reflexivity|].
    change (Nat.iter (S (S n)) ?f st) with (f (Nat.iter (S n) f st)).
    cbv beta. rewrite IH. apply App_fetchStatus_idempotent.
Qed.

(* ------------------------------------------------------------------ *)
(** ** The mount effects *)
(* ------------------------------------------------------------------ *)

(** C1. The earlier revision resets the backend on every mount: the
    first request of its mount effect is [POST /reset], whatever the
    backend holds.  The current revision's mount effect only polls the
    status: it sends no [POST /reset], and a backend answering "ok"
    with [n > 0] concepts is shown ready with that count. *)
Theorem mount_reset_on_reload :
  (forall (reset : response unit) (rs : response StatusData.t)
          (rf : response FilesData.t) (st : State),
      exists later : list request,
        sent (Legacy.mount reset rs rf st) = POST_reset :: later)
  /\ (forall (rs : response StatusData.t) (rf : response FilesData.t)
             (st : State),
        ~ In POST_reset (sent (App.mount rs rf st)))
  /\ (forall (n : Z) (message : option jsstring)
             (examples : option (list jsstring))
             (rf : response FilesData.t) (st : State),
        (n > 0)%Z ->
        let data := StatusData.mk (Some (lit "ok")) (Some n) message examples in
        let st' := after (App.mount (HttpOk (Resolves data)) rf st) in
        indexReady st' = true /\ indexedConcepts st' = n).
Proof.
  split; [|split].
  - intros reset rs rf st. unfold Legacy.mount.
    exists (sent (Legacy.fetchStatus rs rf st)).
    cbv beta iota zeta delta [bind fetch sent snd app].
    destruct (Legacy.fetchStatus rs rf st) as [[u st1] reqs]. reflexivity.
  - intros rs rf st. unfold App.mount.
    pose proof (App_fetchStatus_sent rs rf st) as H.
    unfold sent, bind, ret in *.
    destruct (App.fetchStatus rs rf st) as [[u st1] reqs]. cbn [snd] in *.
    rewrite app_nil_r. subst reqs.
    destruct rs as [m|j t|[m|data]]; cbn; intuition discriminate.
  - intros n message examples rf st Hn data st'. subst st'. unfold App.mount.
    pose proof (App_fetchStatus_indexReady data rf st) as Hr.
    pose proof (App_fetchStatus_indexedConcepts data rf st) as Hc.
    unfold after, bind, ret in *.
    destruct (App.fetchStatus (HttpOk (Resolves data)) rf st) as [[u st1] reqs].
    cbn [fst snd] in *. rewrite Hr, Hc. subst data. cbn [StatusData.status
      StatusData.indexed_concepts orZero strictEq].
    rewrite jseqb_refl. split; [|reflexivity].
    apply andb_true_iff. split; [reflexivity|]. apply Z.gtb_lt. lia.
Qed.

(** A reload with three concepts indexed, in each revision. *)
Example mount_with_three_concepts :
  let status := HttpOk (Resolves (StatusData.mk (Some (lit "ok")) (Some 3%Z)
                                    None None)) in
  let files := HttpOk (Resolves (FilesData.mk (Some [lit "book.xlsx"]))) in
  sent (Legacy.mount (HttpOk (Resolves tt)) status files initial)
  = [POST_reset; GET_status; GET_files]
  /\ sent (App.mount status files initial) = [GET_status; GET_files]
  /\ indexReady (after (App.mount status files initial)) = true
  /\ indexedConcepts (after (App.mount status files initial)) = 3%Z
  /\ indexMessage (after (App.mount status files initial))
     = lit "Index ready with 3 concepts."
  /\ uploadedFiles (after (App.mount status files initial))
     = [lit "book.xlsx"].
Proof. repeat split. Qed.

(* ------------------------------------------------------------------ *)
(** ** Upload and index *)
(* ------------------------------------------------------------------ *)

(** C10. With no file selected, [handleUploadAndIndex] (in both
    revisions) only sets the error asking for a file: it sends no
    request and every other cell, the indexing flag included, keeps
    its value. *)
Theorem handleUploadAndIndex_needs_a_file :
  forall (st : State) (ri : response StatusData.t)
         (ticks : list (response StatusData.t * response FilesData.t))
         (rf : response FilesData.t),
    filesToUpload st = [] ->
    App.handleUploadAndIndex ri ticks st
      = (tt, after (setError (Some selectAFile) st), [])
    /\ Legacy.handleUploadAndIndex ri rf st
      = (tt, after (setError (Some selectAFile) st), [])
    /\ error (after (setError (Some selectAFile) st)) = Some selectAFile
    /\ indexing (after (setError (Some selectAFile) st)) = indexing st
    /\ indexReady (after (setError (Some selectAFile) st)) = indexReady st
    /\ indexMessage (after (setError (Some selectAFile) st)) = indexMessage st
    /\ indexedConcepts (after (setError (Some selectAFile) st))
       = indexedConcepts st.
Proof.
  intros st ri ticks rf H.
  unfold App.handleUploadAndIndex, Legacy.handleUploadAndIndex,
    App.handleUploadAndIndex_begin, Legacy.handleUploadAndIndex_begin.
  destruct st as [q r l e sc f ix ir im ic uf eq]. cbn in H. subst f.
  repeat split.
Qed.

Lemma handleUploadAndIndex_needs_a_file_witness :
  filesToUpload initial = []
  /\ App.handleUploadAndIndex (NetworkError []) [] initial
     = (tt, after (setError (Some selectAFile) initial), []).
Proof.
  split; [reflexivity|].
  exact (proj1 (handleUploadAndIndex_needs_a_file initial (NetworkError []) []
                  (NetworkError []) eq_refl)).
Defined.

(* ------------------------------------------------------------------ *)
(** ** Search *)
(* ------------------------------------------------------------------ *)

(** [s.trim()] is empty exactly when [s] is empty or consists of
    white space and line terminators only. *)
Lemma trimStart_nil (s : jsstring) :
  trimStart s = [] <-> forallb isTrimmed s = true.
Proof.
  induction s as [|c s IH]; cbn; [tauto|].
  destruct (isTrimmed c); cbn; [exact IH|]. split; discriminate.
Qed.

Lemma trimStart_head (s : jsstring) :
  match trimStart s with
  | [] => True
  | c :: _ => isTrimmed c = false
  end.
Proof.
  induction s as [|c s IH]; cbn; [exact I|].
  destruct (isTrimmed c) eqn:Hc; [exact IH|exact Hc].
Qed.

Lemma trim_nil (s : jsstring) :
  trim s = [] <-> forallb isTrimmed s = true.
Proof.
  unfold trim, trimEnd. split.
  - intro H. apply trimStart_nil.
    apply (f_equal (@rev N)) in H. rewrite rev_involutive in H. cbn in H.
    apply trimStart_nil in H. rewrite forallb_forall in H.
    pose proof (trimStart_head s) as Hh.
    destruct (trimStart s) as [|c t]; [reflexivity|].
    rewrite (H c) in Hh; [discriminate|]. apply in_rev.
    rewrite rev_involutive. now left.
  - intro H. apply trimStart_nil in H. rewrite H. reflexivity.
Qed.

Lemma handleSearch_blank (st : State) (r : response SearchData.t) :
  trim (query st) = [] ->
  App.handleSearch r st = (tt, st, [])
  /\ Legacy.handleSearch r st = (tt, st, []).
Proof.
  intro H.
  destruct st as [q rs l e sc f ix ir im ic uf eq]. cbn [query] in H.
  unfold App.handleSearch, Legacy.handleSearch, App.handleSearch_begin,
    Legacy.handleSearch_begin.
  run_handlers. rewrite H. cbn [falsy]. split; reflexivity.
Qed.

(** C6, as stated, fails: a whitespace-only query makes [handleSearch]
    return without any error being raised or displayed, even with the
    index ready. *)
Lemma blank_query_reports_no_error :
  trim (lit "   ") = []
  /\ ~ reportsError (App.handleSearch (NetworkError []) (readyWith 2 (lit "   ")))
  /\ ~ reportsError
         (Legacy.handleSearch (NetworkError []) (readyWith 2 (lit "   "))).
Proof.
  split; [reflexivity|].
  split; intros [message H]; vm_compute in H; discriminate.
Qed.

(** C6, amended. For every query that is empty or made of white
    space only (so that [query.trim()] is empty), [handleSearch] (in
    both revisions) returns before sending any request -- so no
    embedding or retrieval is attempted -- and leaves every state cell
    as it was: the query is dropped silently, no error is set. *)
Theorem handleSearch_drops_blank_query :
  forall (st : State) (r : response SearchData.t),
    forallb isTrimmed (query st) = true ->
    trim (query st) = []
    /\ App.handleSearch r st = (tt, st, [])
    /\ Legacy.handleSearch r st = (tt, st, [])
    /\ error (after (App.handleSearch r st)) = error st
    /\ error (after (Legacy.handleSearch r st)) = error st.
Proof.
  intros st r H. apply trim_nil in H.
  destruct (handleSearch_blank st r H) as [HA HL].
  rewrite HA, HL. repeat split. exact H.
Qed.

Lemma handleSearch_drops_blank_query_witness :
  forallb isTrimmed (query (typed (lit "   "))) = true
  /\ App.handleSearch (NetworkError []) (typed (lit "   "))
     = (tt, typed (lit "   "), []).
Proof.
  split; [reflexivity|].
  exact (proj1 (proj2 (handleSearch_drops_blank_query (typed (lit "   "))
                         (NetworkError []) eq_refl))).
Defined.

Lemma falsy_false (s : jsstring) : s <> [] -> falsy s = false.
Proof. destruct s; [congruence|reflexivity]. Qed.

(** C2, as stated, fails, in two ways.  With the index not ready, a
    whitespace-only query does not end in the index-not-ready error:
    it is dropped by the blank-query guard, which comes first.  And
    the current revision's [handleSearch] does not fail a non-blank
    query at all while the index is not ready: it posts the search. *)
Lemma blank_query_is_not_a_not_ready_failure :
  (indexReady (typed (lit "   ")) = false
   /\ error (after (Legacy.handleSearch (NetworkError [])
                      (typed (lit "   "))))
      <> Some Legacy.notReadyMessage)
  /\ (indexReady (typed (lit "total revenue")) = false
      /\ sent (App.handleSearch_begin (typed (lit "total revenue")))
         = [POST_search (lit "total revenue")]
      /\ error (after (App.handleSearch_begin (typed (lit "total revenue"))))
         = None).
Proof.
  split; [split; [reflexivity|vm_compute; discriminate]|].
  repeat split.
Qed.

(** C2, amended. In the earlier revision (the one whose [handleSearch]
    checks [indexReady]), while the index is not ready: a non-blank
    query fails with the index-not-ready error and sends no request,
    so nothing can reach the embedding or reasoning services; a blank
    query is dropped silently by the blank-query guard, which comes
    first, also without any request. *)
Theorem search_while_not_ready :
  forall (st : State) (r : response SearchData.t),
    indexReady st = false ->
    sent (Legacy.handleSearch r st) = []
    /\ (trim (query st) <> [] ->
        Legacy.handleSearch r st
        = (tt, after (setError (Some Legacy.notReadyMessage) st), [])
        /\ error (after (Legacy.handleSearch r st))
           = Some Legacy.notReadyMessage)
    /\ (trim (query st) = [] -> Legacy.handleSearch r st = (tt, st, [])).
Proof.
  intros st r H.
  assert (HL : trim (query st) <> [] ->
               Legacy.handleSearch r st
               = (tt, after (setError (Some Legacy.notReadyMessage) st), [])).
  { intro Hq. destruct st as [q rs l e sc f ix ir im ic uf eq].
    cbn [query indexReady] in *. subst ir.
    unfold Legacy.handleSearch, Legacy.handleSearch_begin.
    run_handlers. rewrite (falsy_false _ Hq). reflexivity. }
  split; [|split].
  - destruct (list_eq_dec N.eq_dec (trim (query st)) []) as [Hq|Hq].
    + now rewrite (proj2 (handleSearch_blank st r Hq)).
    + now rewrite (HL Hq).
  - intro Hq. rewrite (HL Hq). split; reflexivity.
  - intro Hq. apply (handleSearch_blank st r Hq).
Qed.

Lemma search_while_not_ready_witness :
  indexReady (typed (lit "total revenue")) = false
  /\ sent (Legacy.handleSearch (NetworkError []) (typed (lit "total revenue")))
     = [].
Proof.
  split; [reflexivity|].
  exact (proj1 (search_while_not_ready (typed (lit "total revenue"))
                  (NetworkError []) eq_refl)).
Defined.

(** The current revision's [handleSearch] itself has no readiness
    guard: called with a non-blank query it posts the search whatever
    [indexReady] is; only the disabled form controls keep it from
    being called. *)
Lemma App_handleSearch_begin_unguarded (st : State) :
  trim (query st) <> [] ->
  returned (App.handleSearch_begin st) = true
  /\ sent (App.handleSearch_begin st) = [POST_search (query st)].
Proof.
  intro Hq. destruct st as [q rs l e sc f ix ir im ic uf eq].
  cbn [query] in *. unfold App.handleSearch_begin. run_handlers.
  rewrite (falsy_false _ Hq). split; reflexivity.
Qed.

(* ------------------------------------------------------------------ *)
(** ** Ready never means zero concepts *)
(* ------------------------------------------------------------------ *)

Lemma App_dispatch_readyMeansIndexed (e : App.event) (st : State) :
  readyMeansIndexed st -> readyMeansIndexed (after (App.dispatch e st)).
Proof.
  intro Inv. destruct st as [q rs l er sc f ix ir im ic uf eq].
  destruct e; unfold App.dispatch, App.fetchStatus, App.handleFileChange,
    App.clickUpload_begin, App.handleUploadAndIndex_begin,
    App.handleUploadAndIndex_then, App.uploadFailed, App.poll, App.clickChip,
    App.submit_begin, App.handleSearch_begin, App.handleSearch_then,
    App.toggleContext, App.uploadDisabled, App.searchDisabled;
    break_matches; close_ready.
Qed.

Lemma Legacy_advance_readyMeansIndexed (e : Legacy.event) (w w' : Legacy.world) :
  Legacy.advance e w = Some w' ->
  readyMeansIndexed (Legacy.ui w) -> readyMeansIndexed (Legacy.ui w').
Proof.
  destruct w as [st n]. destruct st as [q rs l er sc f ix ir im ic uf eq].
  cbn [Legacy.ui]. intros Hstep Inv. revert Hstep.
  destruct e; unfold Legacy.advance, Legacy.fetchStatus,
    Legacy.handleFileChange, Legacy.clickUpload_begin,
    Legacy.handleUploadAndIndex_begin, Legacy.handleUploadAndIndex_then,
    Legacy.uploadFailed, Legacy.clickChip_begin, Legacy.submit_begin,
    Legacy.handleSearch_begin, Legacy.handleSearch_then, Legacy.searchFailed,
    Legacy.toggleContext, Legacy.uploadDisabled, Legacy.searchDisabled;
    cbn [Legacy.ui Legacy.pendingIndex];
    break_matches; intro Hstep;
    try discriminate Hstep; injection Hstep as <-; cbn [Legacy.ui];
    close_ready.
Qed.

Lemma App_reachable_readyMeansIndexed (st : State) :
  App.reachable st -> readyMeansIndexed st.
Proof.
  induction 1 as [|st e _ IH].
  - intro H. discriminate H.
  - now apply App_dispatch_readyMeansIndexed.
Qed.

Lemma Legacy_reachable_readyMeansIndexed (w : Legacy.world) :
  Legacy.reachable w -> readyMeansIndexed (Legacy.ui w).
Proof.
  induction 1 as [|w w' e _ IH Hstep].
  - intro H. discriminate H.
  - now apply (Legacy_advance_readyMeansIndexed e w w').
Qed.

(** The earlier revision, once [POST /index] answered with [data]. *)
Lemma Legacy_index_answer (data : StatusData.t) (rf : response FilesData.t)
    (st : State) :
  let st' := after (Legacy.handleUploadAndIndex_then
                      (HttpOk (Resolves data)) rf st) in
  indexReady st'
  = strictEq (StatusData.status data) (lit "success")
    && Legacy.positive (StatusData.indexed_concepts data)
  /\ (indexReady st' = true ->
      indexedConcepts st' = orZero (StatusData.indexed_concepts data))
  /\ (indexReady st' = false ->
      indexMessage st' = orElse (StatusData.message data) nothingIndexed)
  /\ error st' = error st
  /\ indexing st' = false.
Proof.
  destruct st as [q rs l er sc f ix ir im ic uf eq].
  unfold Legacy.handleUploadAndIndex_then.
  destruct (strictEq (StatusData.status data) (lit "success")
            && Legacy.positive (StatusData.indexed_concepts data)).
  - break_matches; repeat split; intro; discriminate.
  - break_matches; repeat split; intro; discriminate.
Qed.

(** The current revision, once [GET /status] answered with [data]:
    the message and the error cell. *)
Lemma App_fetchStatus_zero (data : StatusData.t) (rf : response FilesData.t)
    (st : State) :
  let st' := after (App.fetchStatus (HttpOk (Resolves data)) rf st) in
  error st' = error st
  /\ (orZero (StatusData.indexed_concepts data) = 0%Z ->
      StatusData.status data <> Some (lit "indexing") ->
      indexMessage st' = noDataYet).
Proof.
  destruct st as [q rs l er sc f ix ir im ic uf eq].
  unfold App.fetchStatus.
  destruct (strictEq (StatusData.status data) (lit "indexing")) eqn:Hix.
  - apply strictEq_spec in Hix.
    destruct (strictEq (StatusData.status data) (lit "ok")
              && (orZero (StatusData.indexed_concepts data) >? 0)%Z);
      break_matches; split; try reflexivity; intros; congruence.
  - destruct (orZero (StatusData.indexed_concepts data)) eqn:Hc;
      rewrite ?andb_false_r; break_matches; split; try reflexivity;
      intros; try reflexivity; discriminate.
Qed.

(** C5, as stated, fails: with zero concepts the client never shows
    "no indexable concepts found", and sets no error.  The current
    revision shows its own "No data indexed yet..." even when the
    backend sends that message; the earlier one falls back to
    "Indexing did not produce any indexed concepts.". *)
Lemma zero_concepts_is_no_error_state :
  let said := StatusData.mk (Some (lit "ok")) (Some 0%Z)
                (Some (lit "no indexable concepts found")) None in
  let st1 := after (App.fetchStatus (HttpOk (Resolves said))
                      (NetworkError []) initial) in
  let silent := StatusData.mk (Some (lit "success")) (Some 0%Z) None None in
  let chosen := after (setFilesToUpload [mkFile (lit "book.xlsx") 9] initial) in
  let st2 := after (Legacy.handleUploadAndIndex (HttpOk (Resolves silent))
                      (NetworkError []) chosen) in
  (indexMessage st1 = noDataYet
   /\ indexMessage st1 <> lit "no indexable concepts found"
   /\ error st1 = None /\ indexReady st1 = false)
  /\ (indexMessage st2 = nothingIndexed
      /\ indexMessage st2 <> lit "no indexable concepts found"
      /\ error st2 = None /\ indexReady st2 = false).
Proof.
  vm_compute. repeat split; discriminate.
Qed.

Lemma ready_spec (s : option jsstring) (l : jsstring) (n : option Z) :
  strictEq s l && Legacy.positive n = true
  <-> s = Some l /\ exists z : Z, n = Some z /\ (z > 0)%Z.
Proof.
  rewrite andb_true_iff, strictEq_spec. split.
  - intros [Hs Hp]. split; [exact Hs|]. destruct n as [z|]; [|discriminate].
    exists z. split; [reflexivity|]. cbn in Hp. apply Z.gtb_lt in Hp. lia.
  - intros [Hs [z [-> Hz]]]. split; [exact Hs|]. cbn. apply Z.gtb_lt. lia.
Qed.

(** C5, amended. When indexing has completed, the client shows the
    index ready exactly when the answer reports success ("success" to
    [POST /index], "ok" to [GET /status]) with a positive concept
    count.  With zero concepts it shows the index not ready, sets no
    error, and the message is the answer's own or else "Indexing did
    not produce any indexed concepts." (earlier revision), or always
    "No data indexed yet. Please upload spreadsheets." (current
    revision, status other than "indexing").  In no state the
    component can reach is the index shown ready with a count that is
    not positive. *)
Theorem ready_only_with_concepts :
  (forall (data : StatusData.t) (rf : response FilesData.t) (st : State),
      let st' := after (Legacy.handleUploadAndIndex_then
                          (HttpOk (Resolves data)) rf st) in
      (indexReady st' = true <->
         StatusData.status data = Some (lit "success")
         /\ exists n : Z,
              StatusData.indexed_concepts data = Some n /\ (n > 0)%Z)
      /\ (indexReady st' = true ->
          indexedConcepts st' = orZero (StatusData.indexed_concepts data))
      /\ (indexReady st' = false ->
          indexMessage st' = orElse (StatusData.message data) nothingIndexed)
      /\ error st' = error st)
  /\ (forall (data : StatusData.t) (rf : response FilesData.t) (st : State),
      let st' := after (App.fetchStatus (HttpOk (Resolves data)) rf st) in
      (indexReady st' = true <->
         StatusData.status data = Some (lit "ok")
         /\ exists n : Z,
              StatusData.indexed_concepts data = Some n /\ (n > 0)%Z)
      /\ indexedConcepts st' = orZero (StatusData.indexed_concepts data)
      /\ (orZero (StatusData.indexed_concepts data) = 0%Z ->
          StatusData.status data <> Some (lit "indexing") ->
          indexReady st' = false /\ indexMessage st' = noDataYet)
      /\ error st' = error st)
  /\ (forall st : State, App.reachable st -> readyMeansIndexed st)
  /\ (forall w : Legacy.world,
        Legacy.reachable w -> readyMeansIndexed (Legacy.ui w)).
Proof.
  split; [|split; [|split]].
  - intros data rf st st'.
    destruct (Legacy_index_answer data rf st) as [Hr [Hc [Hm [He _]]]].
    fold st' in Hr, Hc, Hm, He.
    split; [|split; [exact Hc|split; [exact Hm|exact He]]].
    rewrite Hr. apply ready_spec.
  - intros data rf st st'.
    pose proof (App_fetchStatus_indexReady data rf st) as Hr.
    pose proof (App_fetchStatus_indexedConcepts data rf st) as Hc.
    destruct (App_fetchStatus_zero data rf st) as [He Hm].
    fold st' in Hr, Hc, He, Hm.
    split; [|split; [exact Hc|split; [|exact He]]].
    + rewrite Hr.
      change (orZero (StatusData.indexed_concepts data) >? 0)%Z
        with (Legacy.positive (Some (orZero (StatusData.indexed_concepts data)))).
      rewrite ready_spec. split.
      * intros [Hs [z [Hz Hpos]]]. split; [exact Hs|].
        destruct (StatusData.indexed_concepts data) as [n|]; cbn in Hz.
        -- exists n. split; [reflexivity|]. congruence.
        -- injection Hz as <-. lia.
      * intros [Hs [n [Hn Hpos]]]. split; [exact Hs|].
        exists n. rewrite Hn. split; [reflexivity|exact Hpos].
    + intros H0 Hix. split; [|now apply Hm].
      rewrite Hr, H0. apply andb_false_r.
  - apply App_reachable_readyMeansIndexed.
  - apply Legacy_reachable_readyMeansIndexed.
Qed.

(* ------------------------------------------------------------------ *)
(** ** One ingest at a time *)
(* ------------------------------------------------------------------ *)

(** A click on the disabled button does nothing at all. *)
Lemma clickUpload_while_indexing (st : State) :
  indexing st = true ->
  App.clickUpload_begin st = (false, st, [])
  /\ Legacy.clickUpload_begin st = (false, st, []).
Proof.
  destruct st as [q rs l er sc f ix ir im ic uf eq]. cbn [indexing].
  intros ->. split; reflexivity.
Qed.

(** A click that goes through raises the indexing flag and sends
    exactly one [POST /index], with the chosen files. *)
Lemma clickUpload_starts (st : State) :
  (returned (App.clickUpload_begin st) = true ->
   indexing st = false
   /\ indexing (after (App.clickUpload_begin st)) = true
   /\ sent (App.clickUpload_begin st) = [POST_index (filesToUpload st)])
  /\ (returned (Legacy.clickUpload_begin st) = true ->
      indexing st = false
      /\ indexing (after (Legacy.clickUpload_begin st)) = true
      /\ sent (Legacy.clickUpload_begin st) = [POST_index (filesToUpload st)]).
Proof.
  destruct st as [q rs l er sc f ix ir im ic uf eq].
  unfold App.clickUpload_begin, Legacy.clickUpload_begin,
    App.handleUploadAndIndex_begin, Legacy.handleUploadAndIndex_begin,
    App.uploadDisabled, Legacy.uploadDisabled.
  split; destruct ix, f; run_handlers; intro H; try discriminate H;
    repeat split.
Qed.

Lemma Legacy_advance_oneIngest (e : Legacy.event) (w : Legacy.world) :
  oneIngest w ->
  match Legacy.advance e w with
  | Some w' => oneIngest w'
  | None => True
  end.
Proof.
  destruct w as [st n]. destruct st as [q rs l er sc f ix ir im ic uf eq].
  unfold oneIngest. cbn [Legacy.ui Legacy.pendingIndex indexing].
  intros [Hle Hflag].
  destruct e; unfold Legacy.advance, Legacy.fetchStatus,
    Legacy.handleFileChange, Legacy.clickUpload_begin,
    Legacy.handleUploadAndIndex_begin, Legacy.handleUploadAndIndex_then,
    Legacy.uploadFailed, Legacy.clickChip_begin, Legacy.submit_begin,
    Legacy.handleSearch_begin, Legacy.handleSearch_then, Legacy.searchFailed,
    Legacy.toggleContext, Legacy.uploadDisabled, Legacy.searchDisabled;
    break_matches; try exact I;
    try (split; [lia | first [ exact Hflag | reflexivity
                             | intro; lia | intro; apply Hflag; lia ]]).
  all: split; [|reflexivity].
  all: destruct n as [|[|n]]; [lia| |lia].
  all: specialize (Hflag eq_refl); discriminate Hflag.
Qed.

Lemma Legacy_reachable_oneIngest (w : Legacy.world) :
  Legacy.reachable w -> oneIngest w.
Proof.
  induction 1 as [|w w' e _ IH Hstep].
  - split; cbn; [lia|discriminate].
  - pose proof (Legacy_advance_oneIngest e w IH) as H.
    now rewrite Hstep in H.
Qed.

(** The handler itself does not look at the indexing flag: called
    with a file selected it posts the upload whatever the flag is;
    only the disabled button keeps it from being called. *)
Lemma handleUploadAndIndex_begin_unguarded (st : State) :
  filesToUpload st <> [] ->
  sent (App.handleUploadAndIndex_begin st) = [POST_index (filesToUpload st)]
  /\ sent (Legacy.handleUploadAndIndex_begin st)
     = [POST_index (filesToUpload st)].
Proof.
  destruct st as [q rs l er sc f ix ir im ic uf eq]. cbn [filesToUpload].
  intro Hf. unfold App.handleUploadAndIndex_begin,
    Legacy.handleUploadAndIndex_begin.
  destruct f; [congruence|]. split; reflexivity.
Qed.

(** An upload in the current revision: the poll that sees "indexing"
    keeps the flag up, the one that sees "ok" with concepts ends it. *)
Example upload_then_poll :
  let chosen := after (App.handleFileChange [mkFile (lit "book.xlsx") 9]
                         initial) in
  let started := HttpOk (Resolves (StatusData.mk None None None None)) in
  let running := HttpOk (Resolves (StatusData.mk (Some (lit "indexing"))
                                     (Some 1%Z) None None)) in
  let done := HttpOk (Resolves (StatusData.mk (Some (lit "ok")) (Some 2%Z)
                                  None None)) in
  let nofiles := @HttpError FilesData.t (Rejects []) (Rejects []) in
  let o := App.clickUpload started
             [(running, nofiles); (done, nofiles); (done, nofiles)] chosen in
  sent o = [POST_index [mkFile (lit "book.xlsx") 9];
            GET_status; GET_files; GET_status; GET_files]
  /\ indexing (after o) = false
  /\ indexReady (after o) = true
  /\ indexedConcepts (after o) = 2%Z.
Proof. repeat split. Qed.

(** C4, as stated, fails, in two ways.  Asking for an upload while
    one is being indexed fails with no error: the click on the
    disabled button is ignored.  And in the current revision two
    uploads can be in progress at once: a status answer "ok" with
    concepts (the mount's, say, arriving late) lowers the indexing
    flag while [POST /index] is still pending, the button is enabled
    again and a second click posts a second upload. *)
Lemma second_upload_reports_no_error :
  (indexing busyIndexing = true
   /\ ~ reportsError (App.clickUpload_begin busyIndexing)
   /\ ~ reportsError (Legacy.clickUpload_begin busyIndexing))
  /\ (let book := mkFile (lit "book.xlsx") 9 in
      let stillReady := HttpOk (Resolves (StatusData.mk (Some (lit "ok"))
                                            (Some 3%Z) None None)) in
      option_map AppUploads.uploads
        (AppUploads.run
           [App.FilesChosen [book]; App.UploadClicked;
            App.StatusArrives stillReady (NetworkError []);
            App.UploadClicked]
           (AppUploads.mk initial 0))
      = Some 2%nat).
Proof.
  split.
  - split; [reflexivity|].
    split; intros [message H]; vm_compute in H; discriminate.
  - reflexivity.
Qed.

(** C4, amended. In the earlier revision at most one ingest is in
    progress at any time: in every state it can reach at most one
    [POST /index] is pending, and while one is the indexing flag is
    up.  In both revisions, asking for an upload while the indexing
    flag is up (a click on the disabled "Upload & Index" button) sends
    no request, raises no error and leaves every state cell unchanged;
    a click that does go through happens with the flag down, raises it
    and sends exactly one [POST /index]. *)
Theorem one_ingest_at_a_time :
  (forall st : State,
      indexing st = true ->
      App.clickUpload_begin st = (false, st, [])
      /\ Legacy.clickUpload_begin st = (false, st, []))
  /\ (forall st : State,
        returned (App.clickUpload_begin st) = true ->
        indexing st = false
        /\ indexing (after (App.clickUpload_begin st)) = true
        /\ sent (App.clickUpload_begin st) = [POST_index (filesToUpload st)])
  /\ (forall st : State,
        returned (Legacy.clickUpload_begin st) = true ->
        indexing st = false
        /\ indexing (after (Legacy.clickUpload_begin st)) = true
        /\ sent (Legacy.clickUpload_begin st)
           = [POST_index (filesToUpload st)])
  /\ (forall w : Legacy.world,
        Legacy.reachable w ->
        (Legacy.pendingIndex w <= 1)%nat
        /\ (Legacy.pendingIndex w = 1%nat -> indexing (Legacy.ui w) = true)).
Proof.
  split; [|split; [|split]].
  - apply clickUpload_while_indexing.
  - intro st. apply (proj1 (clickUpload_starts st)).
  - intro st. apply (proj2 (clickUpload_starts st)).
  - apply Legacy_reachable_oneIngest.
Qed.

(* ------------------------------------------------------------------ *)
(** ** Retrieval: the Vector Index contract *)
(* ------------------------------------------------------------------ *)

Lemma StronglySorted_app_inv {A : Type} (R : A -> A -> Prop) (a b : list A) :
  StronglySorted R (a ++ b) ->
  StronglySorted R a /\ StronglySorted R b
  /\ forall x y : A, In x a -> In y b -> R x y.
Proof.
  induction a as [|h a IH]; cbn [app]; intro H.
  - repeat split; [constructor|exact H|intros x y []].
  - apply StronglySorted_inv in H. destruct H as [Hs Hall].
    destruct (IH Hs) as [Ha [Hb Hab]]. rewrite Forall_app in Hall.
    destruct Hall as [Hha Hhb]. repeat split.
    + constructor; assumption.
    + exact Hb.
    + intros x y [<-|Hx] Hy.
      * rewrite Forall_forall in Hhb. now apply Hhb.
      * now apply Hab.
Qed.

Section RetrievalFacts.
Import VectorIndex.

Variable vector : Type.
Variable score : Type.
Variable similarity : vector -> vector -> score.
Variable atLeast : score -> score -> bool.

(** The comparison of scores is a total preorder. *)
Hypothesis atLeast_total :
  forall a b : score, atLeast a b = true \/ atLeast b a = true.
Hypothesis atLeast_trans :
  forall a b c : score,
    atLeast a b = true -> atLeast b c = true -> atLeast a c = true.

Local Abbreviation hit := (VectorIndex.hit vector score).
Local Abbreviation index := (VectorIndex.index vector).

Lemma place_perm (h : hit) (l : list hit) :
  Permutation (place atLeast h l) (h :: l).
Proof.
  induction l as [|x r IH]; cbn [place]; [reflexivity|].
  destruct (atLeast (similarityTo h) (similarityTo x)); [reflexivity|].
  rewrite IH. apply perm_swap.
Qed.

Lemma ranked_perm (q : vector) (n : nat) (idx : index) :
  Permutation (fold_right (place atLeast) [] (scoredFrom similarity q n idx))
    (scoredFrom similarity q n idx).
Proof.
  revert n. induction idx as [|c r IH]; intro n; cbn; [reflexivity|].
  rewrite place_perm. constructor. apply IH.
Qed.

Lemma scoredFrom_length (q : vector) (idx : index) :
  forall n : nat, List.length (scoredFrom similarity q n idx) = List.length idx.
Proof. induction idx as [|c r IH]; intro n; cbn; [reflexivity|now rewrite IH]. Qed.

Lemma scoredFrom_found (q : vector) (idx : index) :
  forall n : nat, map found (scoredFrom similarity q n idx) = idx.
Proof. induction idx as [|c r IH]; intro n; cbn; [reflexivity|now rewrite IH]. Qed.

(** Every scored hit sits at its insertion position, counted from [n]. *)
Lemma scoredFrom_In (q : vector) (idx : index) :
  forall (n : nat) (h : hit),
    In h (scoredFrom similarity q n idx) ->
    (n <= position h)%nat
    /\ nth_error idx (position h - n) = Some (found h)
    /\ similarityTo h = similarity q (embedding (found h)).
Proof.
  induction idx as [|c r IH]; intros n h; cbn; [intros []|].
  intros [<-|Hin]; cbn.
  - rewrite Nat.sub_diag. repeat split. lia.
  - destruct (IH _ _ Hin) as [Hle [Hnth Hs]]. repeat split; [lia| |exact Hs].
    replace (position h - n)%nat with (S (position h - S n)) by lia.
    exact Hnth.
Qed.

(** An earlier concept that is at least as similar outranks whatever
    the next one outranks. *)
Lemma outranks_through (h x y : hit) :
  atLeast (similarityTo h) (similarityTo x) = true ->
  outranks atLeast x y ->
  (position h < position y)%nat ->
  outranks atLeast h y.
Proof.
  intros Hhx [Hxy _] Hlt. split.
  - exact (atLeast_trans _ _ _ Hhx Hxy).
  - intros _. exact Hlt.
Qed.

Lemma place_sorted (h : hit) (l : list hit) :
  StronglySorted (outranks atLeast) l ->
  (forall x : hit, In x l -> (position h < position x)%nat) ->
  StronglySorted (outranks atLeast) (place atLeast h l).
Proof.
  induction l as [|x r IH]; intros Hs Hpos; cbn [place].
  - constructor; constructor.
  - apply StronglySorted_inv in Hs. destruct Hs as [Hr Hx].
    destruct (atLeast (similarityTo h) (similarityTo x)) eqn:Hhx.
    + constructor; [constructor; assumption|].
      constructor.
      * split; [exact Hhx|]. intros _. apply Hpos. now left.
      * rewrite Forall_forall in *. intros y Hy.
        apply (outranks_through h x y Hhx (Hx y Hy)). apply Hpos. now right.
    + constructor.
      * apply IH; [exact Hr|]. intros y Hy. apply Hpos. now right.
      * rewrite Forall_forall in *. intros y Hy.
        apply (Permutation_in _ (place_perm h r)) in Hy.
        destruct Hy as [<-|Hy]; [|now apply Hx].
        split; [|congruence].
        destruct (atLeast_total (similarityTo x) (similarityTo h));
          congruence.
Qed.

Lemma ranked_sorted (q : vector) (idx : index) :
  forall n : nat,
    StronglySorted (outranks atLeast)
      (fold_right (place atLeast) [] (scoredFrom similarity q n idx)).
Proof.
  induction idx as [|c r IH]; intro n; cbn; [constructor|].
  apply place_sorted; [apply IH|].
  intros x Hx. apply (Permutation_in _ (ranked_perm q (S n) r)) in Hx.
  apply scoredFrom_In in Hx. cbn. lia.
Qed.

Lemma ranked_genuine (q : vector) (idx : index) :
  Forall (genuine similarity q idx) (ranked similarity atLeast q idx).
Proof.
  rewrite Forall_forall. intros h Hh.
  apply (Permutation_in _ (ranked_perm q 0 idx)) in Hh.
  apply scoredFrom_In in Hh. destruct Hh as [_ [Hnth Hs]].
  rewrite Nat.sub_0_r in Hnth. split; assumption.
Qed.

(** C3. [query(vector, k)] returns [min k size] results -- at most
    [k], and all concepts when [k] is at least the index size --, each
    a concept of the index with its own similarity, in descending
    similarity with ties in insertion order (earlier first); every
    concept left out is outranked by every concept returned.  The
    similarity metric is any one whose scores are totally preordered. *)
Theorem query_returns_nearest_in_order :
  forall (q : vector) (k : nat) (idx : index),
    let hits := nearest similarity atLeast q k idx in
    let rest := skipn k (ranked similarity atLeast q idx) in
    query similarity atLeast q k idx
    = map (fun h => (found h, similarityTo h)) hits
    /\ List.length (query similarity atLeast q k idx)
       = Nat.min k (List.length idx)
    /\ (List.length (query similarity atLeast q k idx) <= k)%nat
    /\ Forall (genuine similarity q idx) hits
    /\ StronglySorted (outranks atLeast) hits
    /\ (forall h h' : hit, In h hits -> In h' rest -> outranks atLeast h h')
    /\ Permutation (hits ++ rest) (scoredFrom similarity q 0 idx)
    /\ ((List.length idx <= k)%nat -> Permutation (map found hits) idx).
Proof.
  intros q k idx hits rest. subst hits rest. unfold query, nearest.
  pose proof (ranked_sorted q idx 0) as Hs. fold (ranked similarity atLeast q idx) in Hs.
  pose proof (ranked_perm q 0 idx) as Hp. fold (ranked similarity atLeast q idx) in Hp.
  pose proof (ranked_genuine q idx) as Hg.
  assert (Hlen : List.length (ranked similarity atLeast q idx) = List.length idx).
  { rewrite (Permutation_length Hp). apply scoredFrom_length. }
  rewrite <- (firstn_skipn k (ranked similarity atLeast q idx)) in Hs, Hg.
  apply StronglySorted_app_inv in Hs. destruct Hs as [Hs1 [_ Hcut]].
  apply Forall_app in Hg. destruct Hg as [Hg1 _].
  split; [reflexivity|]. rewrite length_map, length_firstn, Hlen.
  split; [reflexivity|]. split; [lia|]. split; [exact Hg1|].
  split; [exact Hs1|]. split; [exact Hcut|]. split.
  - now rewrite firstn_skipn.
  - intro Hk. rewrite firstn_all2 by lia.
    rewrite (Permutation_map found Hp). now rewrite scoredFrom_found.
Qed.

End RetrievalFacts.

Example query_demo :
  map (fun r => VectorIndex.id (fst r))
    (VectorIndex.query closeness Z.geb 2%Z 2 demoIndex)
  = [lit "first"; lit "second"]
  /\ map (fun r => VectorIndex.id (fst r))
       (VectorIndex.query closeness Z.geb 2%Z 9 demoIndex)
     = [lit "first"; lit "second"; lit "third"; lit "far"].
Proof. split; reflexivity. Qed.

Lemma geb_total (a b : Z) : (a >=? b)%Z = true \/ (b >=? a)%Z = true.
Proof. rewrite !Z.geb_le. lia. Qed.

Lemma geb_trans (a b c : Z) :
  (a >=? b)%Z = true -> (b >=? c)%Z = true -> (a >=? c)%Z = true.
Proof. rewrite !Z.geb_le. lia. Qed.

Lemma query_returns_nearest_in_order_witness :
  (forall a b : Z, (a >=? b)%Z = true \/ (b >=? a)%Z = true)
  /\ (forall a b c : Z,
        (a >=? b)%Z = true -> (b >=? c)%Z = true -> (a >=? c)%Z = true)
  /\ StronglySorted (VectorIndex.outranks Z.geb)
       (VectorIndex.nearest closeness Z.geb 2%Z 2 demoIndex).
Proof.
  split; [exact geb_total|]. split; [exact geb_trans|].
  exact (proj1 (proj2 (proj2 (proj2 (proj2
    (query_returns_nearest_in_order Z Z closeness Z.geb geb_total geb_trans
       2%Z 2%nat demoIndex)))))).
Defined.

(* ------------------------------------------------------------------ *)
(** ** renderMarkdown: what becomes of the lines *)
(* ------------------------------------------------------------------ *)

Section MarkdownLines.
Import Markdown.

Lemma emitLine_content (inList : bool) (out : list piece) (line : jsstring) :
  filter isContent (snd (emitLine (inList, out) line))
  = filter isContent out ++ pieceOf line.
Proof.
  unfold emitLine, pieceOf.
  destruct (startsWith (lit "*") (trim line)).
  - destruct inList; cbn [snd negb]; rewrite !filter_app; cbn;
      rewrite ?app_nil_r; reflexivity.
  - destruct inList, (JS.eqb (trim line) []); cbn [snd negb];
      rewrite ?filter_app; cbn; rewrite ?app_nil_r; reflexivity.
Qed.

Lemma forEach_content (lines : list jsstring) :
  forall (inList : bool) (out : list piece),
    filter isContent (snd (fold_left emitLine lines (inList, out)))
    = filter isContent out ++ flat_map pieceOf lines.
Proof.
  induction lines as [|line lines IH]; intros inList out.
  - cbn. now rewrite app_nil_r.
  - cbn [fold_left flat_map].
    pose proof (emitLine_content inList out line) as H.
    destruct (emitLine (inList, out) line) as [b o]. cbn [snd] in H.
    rewrite IH, H, app_assoc. reflexivity.
Qed.

(** X1. Between the list tags it adds, [renderMarkdown] emits exactly
    one piece per non-blank line of the (bold-replaced) text, in line
    order: an item for a line that starts, trimmed, with an asterisk, a
    paragraph holding the line as it is for any other non-blank line;
    blank lines give nothing. *)
Theorem renderMarkdown_keeps_every_line :
  forall text : jsstring,
    filter isContent (emitted text)
    = flat_map pieceOf (split newline (replaceStrong 0 text)).
Proof.
  intro text. unfold emitted.
  pose proof (forEach_content (split newline (replaceStrong 0 text)) false [])
    as H.
  destruct (fold_left emitLine _ (false, [])) as [b o]. cbn [snd] in H.
  destruct b; [rewrite filter_app; cbn; rewrite app_nil_r|]; exact H.
Qed.

Lemma lazyClose_plain (captured rest : jsstring) :
  forallb plainChar captured = true ->
  lazyClose (captured ++ star :: star :: rest) = Some captured.
Proof.
  induction captured as [|c t IH]; cbn [app forallb]; intro H.
  - reflexivity.
  - apply andb_true_iff in H. destruct H as [Hc Ht].
    unfold plainChar, notStar in Hc. apply andb_true_iff in Hc.
    destruct Hc as [Hs Hl]. apply negb_true_iff in Hs, Hl.
    cbn [lazyClose]. rewrite Hs, Hl. cbn [andb]. now rewrite (IH Ht).
Qed.

Lemma replaceStrong_skip (a b : jsstring) :
  replaceStrong (List.length a) (a ++ b) = replaceStrong 0 b.
Proof. induction a as [|c a IH]; [reflexivity|exact IH]. Qed.

Lemma replaceStrong_at_match (c : N) (tl captured : jsstring) :
  matchStrong (c :: tl) = Some captured ->
  replaceStrong 0 (c :: tl)
  = lit "<strong>" ++ captured ++ lit "</strong>"
      ++ replaceStrong (3 + List.length captured) tl.
Proof. intro H. cbn [replaceStrong]. now rewrite H. Qed.

Lemma replaceStrong_bold_at_head (captured rest : jsstring) :
  forallb plainChar captured = true ->
  replaceStrong 0 (lit "**" ++ captured ++ lit "**" ++ rest)
  = lit "<strong>" ++ captured ++ lit "</strong>" ++ replaceStrong 0 rest.
Proof.
  intro H.
  change (lit "**" ++ captured ++ lit "**" ++ rest)
    with (star :: star :: captured ++ star :: star :: rest).
  assert (M : matchStrong (star :: star :: captured ++ star :: star :: rest)
              = Some captured).
  { cbn [matchStrong]. rewrite N.eqb_refl. cbn [andb].
    apply lazyClose_plain, H. }
  rewrite (replaceStrong_at_match _ _ _ M).
  assert (E : replaceStrong (3 + List.length captured)
                (star :: captured ++ star :: star :: rest)
              = replaceStrong 0 rest).
  { replace (star :: captured ++ star :: star :: rest)
      with ((star :: captured ++ [star; star]) ++ rest)
      by (cbn [app]; now rewrite <- app_assoc).
    replace (3 + List.length captured)%nat
      with (List.length (star :: captured ++ [star; star]))
      by (cbn [List.length]; rewrite length_app; cbn [List.length]; lia).
    apply replaceStrong_skip. }
  rewrite E. reflexivity.
Qed.

(** Text without asterisks in front is copied, and the replacement
    goes on after it. *)
Lemma replaceStrong_after_plain (before s : jsstring) :
  forallb notStar before = true ->
  replaceStrong 0 (before ++ s) = before ++ replaceStrong 0 s.
Proof.
  induction before as [|c before IH]; cbn [app forallb]; intro H;
    [reflexivity|].
  apply andb_true_iff in H. destruct H as [Hc Hb].
  unfold notStar in Hc. apply negb_true_iff in Hc.
  cbn [replaceStrong].
  assert (M : matchStrong (c :: before ++ s) = None).
  { cbn [matchStrong]. destruct (before ++ s); [reflexivity|].
    now rewrite Hc. }
  rewrite M. now rewrite (IH Hb).
Qed.

(** X2. Where the first asterisks of the text are a [**] followed by
    a run without asterisks or line terminators and a closing [**],
    the text in front is kept, the run is put inside
    [<strong>]...[</strong>], and what follows the closing [**] is
    rendered as if it stood alone. *)
Theorem replaceStrong_bold :
  forall before captured rest : jsstring,
    forallb notStar before = true ->
    forallb plainChar captured = true ->
    replaceStrong 0 (before ++ lit "**" ++ captured ++ lit "**" ++ rest)
    = before ++ lit "<strong>" ++ captured ++ lit "</strong>"
        ++ replaceStrong 0 rest.
Proof.
  intros before captured rest Hb Hc.
  rewrite (replaceStrong_after_plain _ _ Hb).
  now rewrite (replaceStrong_bold_at_head _ _ Hc).
Qed.

Lemma replaceStrong_bold_witness :
  forallb notStar (lit "Total ") = true
  /\ forallb plainChar (lit "Net Profit") = true
  /\ replaceStrong 0 (lit "Total " ++ lit "**" ++ lit "Net Profit" ++ lit "**"
                        ++ lit ": 12")
     = lit "Total " ++ lit "<strong>" ++ lit "Net Profit" ++ lit "</strong>"
         ++ replaceStrong 0 (lit ": 12").
Proof.
  split; [reflexivity|]. split; [reflexivity|].
  exact (replaceStrong_bold (lit "Total ") (lit "Net Profit") (lit ": 12")
           eq_refl eq_refl).
Defined.

Lemma matchStrong_needs_star (s : jsstring) :
  forallb notStar s = true -> matchStrong s = None.
Proof.
  destruct s as [|a [|b r]]; try reflexivity. cbn [forallb matchStrong].
  intro H. apply andb_true_iff in H. destruct H as [Ha _].
  unfold notStar in Ha. apply negb_true_iff in Ha. now rewrite Ha.
Qed.

Lemma replaceStrong_no_star (s : jsstring) :
  forallb notStar s = true -> replaceStrong 0 s = s.
Proof.
  induction s as [|c s IH]; [reflexivity|]. intro H.
  cbn [replaceStrong]. rewrite (matchStrong_needs_star _ H).
  cbn [forallb] in H. apply andb_true_iff in H. now rewrite (IH (proj2 H)).
Qed.

Lemma split_no_star (s : jsstring) :
  forallb notStar s = true ->
  Forall (fun line => forallb notStar line = true) (split newline s).
Proof.
  induction s as [|c s IH]; cbn [split forallb]; intro H.
  - repeat constructor.
  - apply andb_true_iff in H. destruct H as [Hc Hs]. specialize (IH Hs).
    destruct (c =? newline); [constructor; [reflexivity|exact IH]|].
    destruct (split newline s) as [|l ls]; [repeat constructor; cbn; now rewrite Hc|].
    inversion IH as [|? ? Hl Hls]; subst. constructor; [|exact Hls].
    cbn. now rewrite Hc, Hl.
Qed.

Lemma trimStart_incl (s : jsstring) (c : N) :
  In c (trimStart s) -> In c s.
Proof.
  induction s as [|d s IH]; cbn; [tauto|].
  destruct (isTrimmed d); cbn; tauto.
Qed.

Lemma trim_incl (s : jsstring) (c : N) : In c (trim s) -> In c s.
Proof.
  unfold trim, trimEnd. intro H. apply in_rev in H.
  apply trimStart_incl in H. apply in_rev in H.
  now apply trimStart_incl in H.
Qed.

Lemma pieceOf_no_star (line : jsstring) :
  forallb notStar line = true ->
  pieceOf line = if notBlank line then [Para line] else [].
Proof.
  intro H. unfold pieceOf, notBlank.
  destruct (trim line) as [|c t] eqn:Ht; [reflexivity|].
  cbn [startsWith lit map list_ascii_of_string].
  destruct (N_of_ascii "*" =? c) eqn:Hc; [|reflexivity].
  apply N.eqb_eq in Hc. rewrite forallb_forall in H.
  assert (Hin : In c line) by (apply trim_incl; rewrite Ht; now left).
  apply H in Hin. unfold notStar in Hin. subst c. discriminate Hin.
Qed.

Lemma emitLine_no_star (out : list piece) (line : jsstring) :
  forallb notStar line = true ->
  emitLine (false, out) line = (false, out ++ pieceOf line).
Proof.
  intro H. rewrite (pieceOf_no_star line H). unfold emitLine, notBlank.
  destruct (trim line) as [|c t] eqn:Ht; [cbn; now rewrite app_nil_r|].
  cbn [startsWith lit map list_ascii_of_string].
  destruct (N_of_ascii "*" =? c) eqn:Hc; [|reflexivity].
  apply N.eqb_eq in Hc. rewrite forallb_forall in H.
  assert (Hin : In c line) by (apply trim_incl; rewrite Ht; now left).
  apply H in Hin. unfold notStar in Hin. subst c. discriminate Hin.
Qed.

Lemma forEach_no_star (lines : list jsstring) :
  Forall (fun line => forallb notStar line = true) lines ->
  forall out : list piece,
    fold_left emitLine lines (false, out)
    = (false, out ++ flat_map pieceOf lines).
Proof.
  induction 1 as [|line lines Hl _ IH]; intro out; cbn [fold_left flat_map].
  - now rewrite app_nil_r.
  - rewrite (emitLine_no_star out line Hl), IH, app_assoc. reflexivity.
Qed.

(** X3. Text without any asterisk is rendered without any list: one
    [<p>] per non-blank line, in order, holding the line exactly as it
    is (nothing is escaped); blank lines disappear. *)
Theorem renderMarkdown_plain_text :
  forall (c : N) (text : jsstring),
    forallb notStar (c :: text) = true ->
    emitted (c :: text)
    = map Para (filter notBlank (split newline (c :: text)))
    /\ renderMarkdown (Some (c :: text))
       = Some (div_dangerouslySetInnerHTML
                 (flat_map (fun line => lit "<p>" ++ line ++ lit "</p>")
                    (filter notBlank (split newline (c :: text))))).
Proof.
  intros c text H.
  assert (He : emitted (c :: text)
               = map Para (filter notBlank (split newline (c :: text)))).
  { unfold emitted. rewrite (replaceStrong_no_star _ H).
    pose proof (split_no_star _ H) as Hs.
    rewrite (forEach_no_star _ Hs []). cbn [app].
    induction Hs as [|line lines Hl _ IH]; [reflexivity|].
    cbn [flat_map filter]. rewrite (pieceOf_no_star line Hl), IH.
    destruct (notBlank line); reflexivity. }
  split; [exact He|].
  rewrite renderMarkdown_emitted, He. f_equal. f_equal.
  unfold flatten. rewrite flat_map_concat_map, map_map.
  now rewrite <- flat_map_concat_map.
Qed.

Lemma renderMarkdown_plain_text_witness :
  forallb notStar (lit "Total: 5") = true
  /\ renderMarkdown (Some (lit "Total: 5"))
     = Some (div_dangerouslySetInnerHTML
               (flat_map (fun line => lit "<p>" ++ line ++ lit "</p>")
                  (filter notBlank (split newline (lit "Total: 5"))))).
Proof.
  split; [reflexivity|].
  exact (proj2 (renderMarkdown_plain_text 84 (lit "otal: 5") eq_refl)).
Defined.

End MarkdownLines.

(* ------------------------------------------------------------------ *)
(** ** Polling the status leaves the search alone *)
(* ------------------------------------------------------------------ *)

(** X4. A status poll, in either revision, never touches what the
    user is doing: the query typed, the answer shown, the loading
    flag, the error, the context toggle and the files chosen keep
    their values, whatever the backend answers. *)
Theorem fetchStatus_leaves_the_search_alone :
  forall (rs : response StatusData.t) (rf : response FilesData.t)
         (st : State),
    let a := after (App.fetchStatus rs rf st) in
    let l := after (Legacy.fetchStatus rs rf st) in
    (query a = query st /\ result a = result st /\ loading a = loading st
     /\ error a = error st /\ showContext a = showContext st
     /\ filesToUpload a = filesToUpload st)
    /\ (query l = query st /\ result l = result st /\ loading l = loading st
        /\ error l = error st /\ showContext l = showContext st
        /\ filesToUpload l = filesToUpload st).
Proof.
  intros rs rf st a l. subst a l.
  destruct st as [q r ld er sc f ix ir im ic uf eq].
  unfold App.fetchStatus, Legacy.fetchStatus.
  split; break_matches; repeat split.
Qed.

(** X15. The earlier revision's [fetchStatus] looks at the count
    only: a parsed answer marks the index ready exactly when
    [indexed_concepts] is positive, whatever [status] says; it leaves
    the indexing flag alone; and the message shown is the client's
    own, never the backend's: it is the same for any two answers with
    the same count, and "No data indexed yet..." when the count is
    not positive. *)
Theorem Legacy_fetchStatus_counts_only :
  forall (data other : StatusData.t) (rf : response FilesData.t)
         (st : State),
    let n := orZero (StatusData.indexed_concepts data) in
    let st' := after (Legacy.fetchStatus (HttpOk (Resolves data)) rf st) in
    indexReady st' = (n >? 0)%Z
    /\ indexedConcepts st' = n
    /\ indexing st' = indexing st
    /\ ((n <= 0)%Z -> indexMessage st' = noDataYet)
    /\ (StatusData.indexed_concepts other = StatusData.indexed_concepts data ->
        indexMessage (after (Legacy.fetchStatus (HttpOk (Resolves other)) rf st))
        = indexMessage st').
Proof.
  intros data other rf st n st'. subst n st'.
  destruct st as [q r ld er sc f ix ir im ic uf eq].
  unfold Legacy.fetchStatus.
  split; [|split; [|split; [|split]]].
  - destruct (orZero (StatusData.indexed_concepts data) >? 0)%Z;
      break_matches; reflexivity.
  - destruct (orZero (StatusData.indexed_concepts data) >? 0)%Z;
      break_matches; reflexivity.
  - destruct (orZero (StatusData.indexed_concepts data) >? 0)%Z;
      break_matches; reflexivity.
  - intro Hn.
    destruct (orZero (StatusData.indexed_concepts data) >? 0)%Z eqn:E;
      [apply Z.gtb_lt in E; lia|].
    break_matches; reflexivity.
  - intros ->.
    destruct (orZero (StatusData.indexed_concepts data) >? 0)%Z;
      break_matches; reflexivity.
Qed.

(* ------------------------------------------------------------------ *)
(** ** How a search ends *)
(* ------------------------------------------------------------------ *)

(** X5. In the current revision a non-blank query is posted once,
    exactly as typed (untrimmed), and when the answer is in the
    loading flag is down again: a parsed answer becomes the result,
    with the context opened and no error; any failure leaves no result
    and sets the error, which for an error response is never empty. *)
Theorem App_search_outcome :
  forall (st : State) (r : response SearchData.t),
    trim (query st) <> [] ->
    let o := App.handleSearch r st in
    sent o = [POST_search (query st)]
    /\ loading (after o) = false
    /\ query (after o) = query st
    /\ match r with
       | HttpOk (Resolves data) =>
           result (after o) = Some data /\ error (after o) = None
           /\ showContext (after o) = true
       | HttpError _ _ =>
           result (after o) = None /\ errorShown (after o) = true
       | NetworkError message | HttpOk (Rejects message) =>
           result (after o) = None /\ error (after o) = Some message
       end.
Proof.
  intros st r Hq o. subst o.
  destruct st as [q rs ld er sc f ix ir im ic uf eq]. cbn [query] in *.
  unfold App.handleSearch, App.handleSearch_begin, App.handleSearch_then,
    errorShown.
  run_handlers. rewrite (falsy_false _ Hq).
  destruct r as [m|[m|d] t|[m|data]]; run_handlers; repeat split.
  unfold orElse. destruct (ErrorData.detail d) as [[|c s]|]; reflexivity.
Qed.

Lemma App_search_outcome_witness :
  trim (query (readyWith 2 (lit " total revenue "))) <> []
  /\ sent (App.handleSearch (NetworkError (lit "Failed to fetch"))
             (readyWith 2 (lit " total revenue ")))
     = [POST_search (lit " total revenue ")].
Proof.
  assert (H : trim (query (readyWith 2 (lit " total revenue "))) <> [])
    by (vm_compute; discriminate).
  split; [exact H|].
  exact (proj1 (App_search_outcome (readyWith 2 (lit " total revenue "))
                  (NetworkError (lit "Failed to fetch")) H)).
Defined.

(** X6. In the earlier revision, with the index ready, a non-blank
    query is posted once as typed and the loading flag is down when
    the answer is in; a parsed answer becomes the result with no
    error, and every failure shows a non-empty error (a fallback text
    stands in for an empty message) and no result. *)
Theorem Legacy_search_outcome :
  forall (st : State) (r : response SearchData.t),
    trim (query st) <> [] ->
    indexReady st = true ->
    let o := Legacy.handleSearch r st in
    sent o = [POST_search (query st)]
    /\ loading (after o) = false
    /\ match r with
       | HttpOk (Resolves data) =>
           result (after o) = Some data /\ error (after o) = None
           /\ showContext (after o) = true
       | _ => result (after o) = None /\ errorShown (after o) = true
       end.
Proof.
  intros st r Hq Hr o. subst o.
  destruct st as [q rs ld er sc f ix ir im ic uf eq].
  cbn [query indexReady] in *. subst ir.
  unfold Legacy.handleSearch, Legacy.handleSearch_begin,
    Legacy.handleSearch_then, Legacy.searchFailed, errorShown.
  run_handlers. rewrite (falsy_false _ Hq).
  destruct r as [m|[m|d] t|[m|data]]; run_handlers; repeat split;
    try (destruct m; reflexivity).
  - unfold orElse. destruct (ErrorData.detail d) as [[|c s]|]; reflexivity.
Qed.

Lemma Legacy_search_outcome_witness :
  trim (query (readyWith 2 (lit "net profit"))) <> []
  /\ indexReady (readyWith 2 (lit "net profit")) = true
  /\ errorShown (after (Legacy.handleSearch (NetworkError [])
                          (readyWith 2 (lit "net profit")))) = true.
Proof.
  assert (H : trim (query (readyWith 2 (lit "net profit"))) <> [])
    by (vm_compute; discriminate).
  split; [exact H|]. split; [reflexivity|].
  exact (proj2 (proj2 (proj2 (Legacy_search_outcome
    (readyWith 2 (lit "net profit")) (NetworkError []) H eq_refl)))).
Defined.

(** X13. In the earlier revision a click on an example chip fills the
    query box with the chip's text but searches for what was in the
    box before (the handler called is the closure of the current
    render): with a blank box nothing is sent. *)
Theorem Legacy_chip_searches_previous_query :
  forall (ex : jsstring) (st : State),
    indexReady st = true ->
    loading st = false ->
    let o := Legacy.clickChip_begin ex st in
    query (after o) = ex
    /\ sent o = (if falsy (trim (query st)) then []
                 else [POST_search (query st)])
    /\ returned o = negb (falsy (trim (query st))).
Proof.
  intros ex st Hr Hl o. subst o.
  destruct st as [q rs ld er sc f ix ir im ic uf eq].
  cbn [query indexReady loading] in *. subst ir ld.
  unfold Legacy.clickChip_begin, Legacy.searchDisabled,
    Legacy.handleSearch_begin.
  run_handlers. destruct (falsy (trim q)); repeat split.
Qed.

Lemma Legacy_chip_searches_previous_query_witness :
  indexReady (readyWith 2 []) = true
  /\ loading (readyWith 2 []) = false
  /\ sent (Legacy.clickChip_begin (lit "Which region has the highest churn?")
             (readyWith 2 []))
     = [].
Proof.
  split; [reflexivity|]. split; [reflexivity|].
  exact (proj1 (proj2 (Legacy_chip_searches_previous_query
    (lit "Which region has the highest churn?") (readyWith 2 [])
    eq_refl eq_refl))).
Defined.

(* ------------------------------------------------------------------ *)
(** ** How an upload ends *)
(* ------------------------------------------------------------------ *)

(** X7. In the earlier revision an upload with files chosen posts
    them first and always ends with the indexing flag down.  Unless a
    body was parsed, it ends in failure: a non-empty error is shown,
    the index is not ready, the message is "Indexing failed." and the
    list of uploaded files is emptied.  A parsed body sets no error. *)
Theorem Legacy_upload_outcome :
  forall (st : State) (ri : response StatusData.t)
         (rf : response FilesData.t),
    filesToUpload st <> [] ->
    let o := Legacy.handleUploadAndIndex ri rf st in
    (exists later : list request,
        sent o = POST_index (filesToUpload st) :: later
        /\ forallb isRead later = true)
    /\ indexing (after o) = false
    /\ result (after o) = None
    /\ match ri with
       | HttpOk (Resolves data) => error (after o) = None
       | _ =>
           errorShown (after o) = true
           /\ indexReady (after o) = false
           /\ indexMessage (after o) = lit "Indexing failed."
           /\ uploadedFiles (after o) = []
       end.
Proof.
  intros st ri rf Hf o. subst o.
  destruct st as [q rs ld er sc f ix ir im ic uf eq].
  cbn [filesToUpload] in *. destruct f as [|f0 fs]; [congruence|].
  unfold Legacy.handleUploadAndIndex, Legacy.handleUploadAndIndex_begin,
    Legacy.handleUploadAndIndex_then, Legacy.uploadFailed, errorShown.
  destruct ri as [m|[m|d] [m'|t]|[m|data]].
  - run_handlers. destruct m; repeat split; eexists; split; reflexivity.
  - run_handlers. destruct m'; repeat split; eexists; split; reflexivity.
  - run_handlers. destruct t; repeat split; eexists; split; reflexivity.
  - run_handlers. unfold orElse.
    destruct (ErrorData.detail d) as [[|c s]|];
      destruct (ErrorData.message d) as [[|c' s']|];
      repeat split; eexists; split; reflexivity.
  - run_handlers. unfold orElse.
    destruct (ErrorData.detail d) as [[|c s]|];
      destruct (ErrorData.message d) as [[|c' s']|];
      repeat split; eexists; split; reflexivity.
  - run_handlers. destruct m; repeat split; eexists; split; reflexivity.
  - destruct (strictEq (StatusData.status data) (lit "success")
              && Legacy.positive (StatusData.indexed_concepts data));
      break_matches; repeat split; eexists; split; reflexivity.
Qed.

Lemma Legacy_upload_outcome_witness :
  filesToUpload busyIndexing <> []
  /\ indexing (after (Legacy.handleUploadAndIndex (NetworkError [])
                        (NetworkError []) busyIndexing)) = false.
Proof.
  assert (H : filesToUpload busyIndexing <> []) by (vm_compute; discriminate).
  split; [exact H|].
  exact (proj1 (proj2 (Legacy_upload_outcome busyIndexing (NetworkError [])
                         (NetworkError []) H))).
Defined.

Lemma App_poll_reads_only
    (ticks : list (response StatusData.t * response FilesData.t)) :
  forall st : State, forallb isRead (sent (App.poll ticks st)) = true.
Proof.
  induction ticks as [|[rs rf] later IH]; intro st; [reflexivity|].
  cbn [App.poll]. unfold bind.
  pose proof (App_fetchStatus_sent rs rf st) as Hs.
  destruct (App.fetchStatus rs rf st) as [[v st1] t1]. cbn [sent snd] in Hs.
  destruct (strictEq v (lit "ok")).
  - unfold ret. cbn [sent snd]. rewrite app_nil_r. subst t1.
    destruct rs as [m|j t|[m|data]]; reflexivity.
  - specialize (IH st1). unfold sent in IH.
    destruct (App.poll later st1) as [[u st2] t2]. cbn [sent snd] in *.
    rewrite forallb_app, IH, andb_true_r. subst t1.
    destruct rs as [m|j t|[m|data]]; reflexivity.
Qed.

(** X8. In the current revision an upload with files chosen posts
    them first.  If [POST /index] fails (no answer, or an error
    status) nothing more is sent -- no poll is started --, a non-empty
    error is shown and the indexing flag is lowered; if it succeeds,
    only status polls and file listings follow. *)
Theorem App_upload_outcome :
  forall (st : State) (ri : response StatusData.t)
         (ticks : list (response StatusData.t * response FilesData.t)),
    filesToUpload st <> [] ->
    let o := App.handleUploadAndIndex ri ticks st in
    match ri with
    | HttpOk _ =>
        exists later : list request,
          sent o = POST_index (filesToUpload st) :: later
          /\ forallb isRead later = true
    | _ =>
        sent o = [POST_index (filesToUpload st)]
        /\ errorShown (after o) = true
        /\ indexing (after o) = false
        /\ indexReady (after o) = false
    end.
Proof.
  intros st ri ticks Hf o. subst o.
  destruct st as [q rs ld er sc f ix ir im ic uf eq].
  cbn [filesToUpload] in *. destruct f as [|f0 fs]; [congruence|].
  unfold App.handleUploadAndIndex, App.handleUploadAndIndex_begin,
    App.handleUploadAndIndex_then, App.uploadFailed, errorShown.
  destruct ri as [m|j t|j].
  - run_handlers. destruct m; repeat split.
  - run_handlers. repeat split.
  - run_handlers.
    match goal with
    | |- context [App.poll ticks ?s] =>
        pose proof (App_poll_reads_only ticks s) as Hp;
        destruct (App.poll ticks s) as [[u st2] t2]
    end.
    cbn [sent snd] in Hp. eexists. split; [reflexivity|exact Hp].
Qed.

Lemma App_upload_outcome_witness :
  filesToUpload busyIndexing <> []
  /\ sent (App.handleUploadAndIndex (NetworkError []) [] busyIndexing)
     = [POST_index (filesToUpload busyIndexing)].
Proof.
  assert (H : filesToUpload busyIndexing <> []) by (vm_compute; discriminate).
  split; [exact H|].
  exact (proj1 (App_upload_outcome busyIndexing (NetworkError []) [] H)).
Defined.

(* ------------------------------------------------------------------ *)
(** ** What lowers the indexing flag in the current revision *)
(* ------------------------------------------------------------------ *)

Lemma App_fetchStatus_ok_without_concepts (data : StatusData.t)
    (rf : response FilesData.t) (st : State) :
  StatusData.status data = Some (lit "ok") ->
  (orZero (StatusData.indexed_concepts data) <= 0)%Z ->
  indexing (after (App.fetchStatus (HttpOk (Resolves data)) rf st))
  = indexing st
  /\ indexReady (after (App.fetchStatus (HttpOk (Resolves data)) rf st))
     = false.
Proof.
  destruct st as [q r ld er sc f ix ir im ic uf eq]. cbn [indexing].
  intros Hs Hc. unfold App.fetchStatus. rewrite Hs.
  assert (E : (orZero (StatusData.indexed_concepts data) >? 0)%Z = false).
  { destruct (orZero (StatusData.indexed_concepts data) >? 0)%Z eqn:E;
      [apply Z.gtb_lt in E; lia|reflexivity]. }
  rewrite E.
  cbn [strictEq]. rewrite jseqb_refl. cbn [andb].
  replace (JS.eqb (lit "ok") (lit "indexing")) with false by reflexivity.
  break_matches; split; reflexivity.
Qed.

(** X10. In the current revision, once the indexing flag is up, only
    two things lower it: a status answer "ok" with a positive count,
    and a failed [POST /index].  In particular the answer that ends
    the polling after an upload without concepts ("ok", no concepts)
    leaves the flag up and the index not ready, so "Upload & Index"
    is still disabled after it. *)
Theorem indexing_lowered_only_by_ready_or_failure :
  forall (e : App.event) (st : State),
    indexing st = true ->
    (indexing (after (App.dispatch e st)) = false ->
     match e with
     | App.StatusArrives (HttpOk (Resolves data)) _ =>
         StatusData.status data = Some (lit "ok")
         /\ (orZero (StatusData.indexed_concepts data) > 0)%Z
     | App.IndexArrives (HttpOk _) => False
     | App.IndexArrives _ => True
     | _ => False
     end)
    /\ (forall (data : StatusData.t) (rf : response FilesData.t),
          StatusData.status data = Some (lit "ok") ->
          (orZero (StatusData.indexed_concepts data) <= 0)%Z ->
          let st' := after (App.dispatch
                              (App.StatusArrives (HttpOk (Resolves data)) rf)
                              st) in
          indexing st' = true /\ indexReady st' = false
          /\ App.uploadDisabled st' = true).
Proof.
  intros e st Hix. split.
  - destruct st as [q rs l er sc f ix ir im ic uf eq].
    cbn [indexing] in Hix. subst ix.
    destruct e as [rs0 rf0|rf0|files| |ri|q0|ex| |r0|];
      unfold App.dispatch, App.handleFileChange,
        App.clickUpload_begin, App.handleUploadAndIndex_begin,
        App.handleUploadAndIndex_then, App.uploadFailed, App.poll,
        App.clickChip, App.submit_begin, App.handleSearch_begin,
        App.handleSearch_then, App.toggleContext, App.uploadDisabled,
        App.searchDisabled.
    + destruct rs0 as [m|j t|[m|data]];
        try (unfold App.fetchStatus; break_matches; intro H; discriminate H).
      unfold App.fetchStatus.
      destruct (strictEq (StatusData.status data) (lit "ok")) eqn:Hs;
        destruct (orZero (StatusData.indexed_concepts data) >? 0)%Z eqn:Hc;
        cbn [andb].
      * intros _. apply strictEq_spec in Hs. apply Z.gtb_lt in Hc.
        split; [exact Hs|lia].
      * break_matches; intro H; discriminate H.
      * break_matches; intro H; discriminate H.
      * break_matches; intro H; discriminate H.
    + break_matches; intro H; discriminate H.
    + break_matches; intro H; discriminate H.
    + break_matches; intro H; discriminate H.
    + destruct ri as [m|j t|j]; break_matches; intro H;
        first [exact I | discriminate H].
    + break_matches; intro H; discriminate H.
    + break_matches; intro H; discriminate H.
    + break_matches; intro H; discriminate H.
    + break_matches; intro H; discriminate H.
    + break_matches; intro H; discriminate H.
  - intros data rf Hs Hc st'. subst st'.
    destruct (App_fetchStatus_ok_without_concepts data rf st Hs Hc)
      as [Hi Hr].
    unfold App.dispatch, App.uploadDisabled.
    unfold after, bind, ret in *.
    destruct (App.fetchStatus (HttpOk (Resolves data)) rf st)
      as [[v st1] t1]. cbn [fst snd] in *.
    rewrite Hi, Hr, Hix. repeat split.
Qed.

Lemma indexing_lowered_only_by_ready_or_failure_witness :
  let nothing := StatusData.mk (Some (lit "ok")) (Some 0%Z) None None in
  indexing busyIndexing = true
  /\ App.uploadDisabled
       (after (App.dispatch
                 (App.StatusArrives (HttpOk (Resolves nothing))
                    (NetworkError []))
                 busyIndexing)) = true.
Proof.
  assert (Hc : (orZero (StatusData.indexed_concepts
                  (StatusData.mk (Some (lit "ok")) (Some 0%Z) None None))
                <= 0)%Z) by (cbn; lia).
  split; [reflexivity|].
  exact (proj2 (proj2 (proj2
    (indexing_lowered_only_by_ready_or_failure App.ContextToggled
       busyIndexing eq_refl)
    (StatusData.mk (Some (lit "ok")) (Some 0%Z) None None) (NetworkError [])
    eq_refl Hc))).
Defined.

(* ------------------------------------------------------------------ *)
(** ** What holds in every state the component can reach *)
(* ------------------------------------------------------------------ *)

Lemma App_dispatch_ready_not_indexing (e : App.event) (st : State) :
  (indexReady st = true -> indexing st = false) ->
  indexReady (after (App.dispatch e st)) = true ->
  indexing (after (App.dispatch e st)) = false.
Proof.
  destruct st as [q rs l er sc f ix ir im ic uf eq].
  cbn [indexReady indexing]. intro Inv.
  destruct e; unfold App.dispatch, App.fetchStatus, App.handleFileChange,
    App.clickUpload_begin, App.handleUploadAndIndex_begin,
    App.handleUploadAndIndex_then, App.uploadFailed, App.poll, App.clickChip,
    App.submit_begin, App.handleSearch_begin, App.handleSearch_then,
    App.toggleContext, App.uploadDisabled, App.searchDisabled;
    break_matches; intro H; first [discriminate H | reflexivity | exact (Inv H)].
Qed.

(** X11. The current revision never shows the index ready while it
    shows an upload being indexed: in every state it can reach,
    [indexReady] implies that [indexing] is down. *)
Theorem App_ready_excludes_indexing :
  forall st : State,
    App.reachable st -> indexReady st = true -> indexing st = false.
Proof.
  induction 1 as [|st e _ IH].
  - intro H. discriminate H.
  - now apply App_dispatch_ready_not_indexing.
Qed.

Lemma App_ready_excludes_indexing_witness :
  let data := StatusData.mk (Some (lit "ok")) (Some 3%Z) None None in
  let st := after (App.dispatch
                     (App.StatusArrives (HttpOk (Resolves data))
                        (NetworkError [])) initial) in
  App.reachable st /\ indexReady st = true /\ indexing st = false.
Proof.
  assert (H : App.reachable
                (after (App.dispatch
                   (App.StatusArrives
                      (HttpOk (Resolves (StatusData.mk (Some (lit "ok"))
                                           (Some 3%Z) None None)))
                      (NetworkError [])) initial)))
    by (apply App.reach_step; apply App.reach_initial).
  split; [exact H|]. split; [reflexivity|].
  exact (App_ready_excludes_indexing _ H eq_refl).
Defined.

Lemma App_dispatch_examples (e : App.event) (st : State) :
  exampleQueries st <> [] ->
  exampleQueries (after (App.dispatch e st)) <> [].
Proof.
  destruct st as [q rs l er sc f ix ir im ic uf eq].
  cbn [exampleQueries]. intro Inv.
  destruct e; unfold App.dispatch, App.fetchStatus, App.handleFileChange,
    App.clickUpload_begin, App.handleUploadAndIndex_begin,
    App.handleUploadAndIndex_then, App.uploadFailed, App.poll, App.clickChip,
    App.submit_begin, App.handleSearch_begin, App.handleSearch_then,
    App.toggleContext, App.uploadDisabled, App.searchDisabled;
    break_matches; first [exact Inv | discriminate].
Qed.

Lemma Legacy_advance_examples (e : Legacy.event) (w : Legacy.world) :
  exampleQueries (Legacy.ui w) <> [] ->
  match Legacy.advance e w with
  | Some w' => exampleQueries (Legacy.ui w') <> []
  | None => True
  end.
Proof.
  destruct w as [st n]. destruct st as [q rs l er sc f ix ir im ic uf eq].
  cbn [Legacy.ui exampleQueries]. intro Inv.
  destruct e; unfold Legacy.advance, Legacy.fetchStatus,
    Legacy.handleFileChange, Legacy.clickUpload_begin,
    Legacy.handleUploadAndIndex_begin, Legacy.handleUploadAndIndex_then,
    Legacy.uploadFailed, Legacy.clickChip_begin, Legacy.submit_begin,
    Legacy.handleSearch_begin, Legacy.handleSearch_then, Legacy.searchFailed,
    Legacy.toggleContext, Legacy.uploadDisabled, Legacy.searchDisabled;
    break_matches; first [exact I | exact Inv | discriminate].
Qed.

(** X12. The row of example chips is never emptied: an answer replaces
    the examples only by a non-empty array, so in every state either
    revision can reach there is at least one example query. *)
Theorem exampleQueries_never_empty :
  (forall st : State, App.reachable st -> exampleQueries st <> [])
  /\ (forall w : Legacy.world,
        Legacy.reachable w -> exampleQueries (Legacy.ui w) <> []).
Proof.
  split.
  - induction 1 as [|st e _ IH]; [discriminate|].
    now apply App_dispatch_examples.
  - induction 1 as [|w w' e _ IH Hstep]; [discriminate|].
    pose proof (Legacy_advance_examples e w IH) as H.
    now rewrite Hstep in H.
Qed.

Lemma stepApp_oneSearch (e : App.event) (w : InFlight.world) :
  InFlight.oneSearch w ->
  match InFlight.stepApp e w with
  | Some w' => InFlight.oneSearch w'
  | None => True
  end.
Proof.
  destruct w as [st n]. destruct st as [q rs l er sc f ix ir im ic uf eq].
  unfold InFlight.oneSearch. cbn [InFlight.page InFlight.searches loading].
  intros [Hle Hflag].
  destruct e; unfold InFlight.stepApp, InFlight.mayAsk, InFlight.answered,
    App.dispatch, App.fetchStatus, App.handleFileChange,
    App.clickUpload_begin, App.handleUploadAndIndex_begin,
    App.handleUploadAndIndex_then, App.uploadFailed, App.poll, App.clickChip,
    App.submit_begin, App.handleSearch_begin, App.handleSearch_then,
    App.toggleContext, App.uploadDisabled, App.searchDisabled;
    cbn [InFlight.page InFlight.searches];
    break_matches; cbn [InFlight.page InFlight.searches loading];
    try exact I;
    try (split; [lia | first [ exact Hflag | reflexivity
                             | intro; lia | intro; apply Hflag; lia ]]).
  all: split; [|reflexivity].
  all: destruct n as [|[|n]]; [lia| |lia].
  all: specialize (Hflag eq_refl); discriminate Hflag.
Qed.

Lemma stepLegacy_oneSearch (e : Legacy.event) (w : InFlight.world) :
  InFlight.oneSearch w ->
  match InFlight.stepLegacy e w with
  | Some w' => InFlight.oneSearch w'
  | None => True
  end.
Proof.
  destruct w as [st n]. destruct st as [q rs l er sc f ix ir im ic uf eq].
  unfold InFlight.oneSearch. cbn [InFlight.page InFlight.searches loading].
  intros [Hle Hflag].
  destruct e; unfold InFlight.stepLegacy, InFlight.mayAsk, InFlight.answered,
    Legacy.advance, Legacy.fetchStatus,
    Legacy.handleFileChange, Legacy.clickUpload_begin,
    Legacy.handleUploadAndIndex_begin, Legacy.handleUploadAndIndex_then,
    Legacy.uploadFailed, Legacy.clickChip_begin, Legacy.submit_begin,
    Legacy.handleSearch_begin, Legacy.handleSearch_then, Legacy.searchFailed,
    Legacy.toggleContext, Legacy.uploadDisabled, Legacy.searchDisabled;
    cbn [InFlight.page InFlight.searches];
    break_matches; cbn [InFlight.page InFlight.searches loading];
    try exact I;
    try (split; [lia | first [ exact Hflag | reflexivity
                             | intro; lia | intro; apply Hflag; lia ]]).
  all: split; [|reflexivity].
  all: destruct n as [|[|n]]; [lia| |lia].
  all: specialize (Hflag eq_refl); discriminate Hflag.
Qed.

(** X14. One search at a time: a search is only sent with the loading
    flag down and raises it, and the flag is lowered only when the
    answer is in; so in every state either revision can reach at most
    one [POST /search] is pending, and while one is the page shows
    [loading]. *)
Theorem one_search_at_a_time :
  (forall w : InFlight.world,
      InFlight.reachableApp w ->
      (InFlight.searches w <= 1)%nat
      /\ (InFlight.searches w = 1%nat -> loading (InFlight.page w) = true))
  /\ (forall w : InFlight.world,
        InFlight.reachableLegacy w ->
        (InFlight.searches w <= 1)%nat
        /\ (InFlight.searches w = 1%nat -> loading (InFlight.page w) = true)).
Proof.
  split.
  - induction 1 as [|w w' e _ IH Hstep].
    + split; cbn; [lia|discriminate].
    + pose proof (stepApp_oneSearch e w IH) as H. now rewrite Hstep in H.
  - induction 1 as [|w w' e _ IH Hstep].
    + split; cbn; [lia|discriminate].
    + pose proof (stepLegacy_oneSearch e w IH) as H. now rewrite Hstep in H.
Qed.

(** X16. What the current revision sends on any event: never a
    [POST /reset]; a search only with the index ready, no search
    loading and a non-blank query, and then the query as typed; an
    upload only with the indexing flag down and files chosen, and then
    those files. *)
Theorem App_requests_are_gated :
  forall (e : App.event) (st : State),
    Forall (fun r =>
              match r with
              | POST_reset => False
              | POST_search q =>
                  indexReady st = true /\ loading st = false
                  /\ q = query st /\ trim q <> []
              | POST_index files =>
                  indexing st = false /\ files = filesToUpload st
                  /\ files <> []
              | GET_status | GET_files => True
              end)
      (sent (App.dispatch e st)).
Proof.
  intros e st. destruct st as [q rs l er sc f ix ir im ic uf eq].
  destruct e; unfold App.dispatch, App.fetchStatus, App.handleFileChange,
    App.clickUpload_begin, App.handleUploadAndIndex_begin,
    App.handleUploadAndIndex_then, App.uploadFailed, App.poll, App.clickChip,
    App.submit_begin, App.handleSearch_begin, App.handleSearch_then,
    App.toggleContext, App.uploadDisabled, App.searchDisabled;
    break_matches; repeat constructor; try discriminate;
    match goal with
    | H : falsy (trim ?x) = false |- trim ?x <> [] =>
        intro E; rewrite E in H; discriminate H
    end.
Qed.

Lemma Legacy_advance_indexing_iff (e : Legacy.event) (w : Legacy.world) :
  (Legacy.pendingIndex w <= 1)%nat
  /\ (indexing (Legacy.ui w) = true <-> Legacy.pendingIndex w = 1%nat) ->
  match Legacy.advance e w with
  | Some w' =>
      (Legacy.pendingIndex w' <= 1)%nat
      /\ (indexing (Legacy.ui w') = true <-> Legacy.pendingIndex w' = 1%nat)
  | None => True
  end.
Proof.
  destruct w as [st n]. destruct st as [q rs l er sc f ix ir im ic uf eq].
  cbn [Legacy.ui Legacy.pendingIndex indexing]. intros [Hle [I1 I2]].
  destruct e; unfold Legacy.advance, Legacy.fetchStatus,
    Legacy.handleFileChange, Legacy.clickUpload_begin,
    Legacy.handleUploadAndIndex_begin, Legacy.handleUploadAndIndex_then,
    Legacy.uploadFailed, Legacy.clickChip_begin, Legacy.submit_begin,
    Legacy.handleSearch_begin, Legacy.handleSearch_then, Legacy.searchFailed,
    Legacy.toggleContext, Legacy.uploadDisabled, Legacy.searchDisabled;
    break_matches; try exact I;
    try (split; [exact Hle|split; assumption]).
  all: try solve [split; [lia|split; intro H;
                          first [discriminate H | lia | exfalso; lia]]].
  all: destruct (Nat.eq_dec n 1) as [E|E];
    [specialize (I2 E); discriminate I2|].
  all: split; [lia|split; intro; [lia|reflexivity]].
Qed.

(** X17. In the earlier revision the indexing flag is up exactly while
    a [POST /index] is awaiting its answer: in every reachable state,
    [indexing] holds if and only if one upload request is pending (the
    flag is lowered in the handler's [finally], whatever the answer). *)
Theorem Legacy_indexing_iff_pending :
  forall w : Legacy.world,
    Legacy.reachable w ->
    (indexing (Legacy.ui w) = true <-> Legacy.pendingIndex w = 1%nat).
Proof.
  intros w Hw.
  assert (H : (Legacy.pendingIndex w <= 1)%nat
              /\ (indexing (Legacy.ui w) = true
                  <-> Legacy.pendingIndex w = 1%nat)); [|exact (proj2 H)].
  induction Hw as [|w w' e _ IH Hstep].
  - cbn. split; [lia|split; discriminate].
  - pose proof (Legacy_advance_indexing_iff e w IH) as H.
    now rewrite Hstep in H.
Qed.

Lemma Legacy_indexing_iff_pending_witness :
  let chosen := Legacy.mkWorld
                  (after (Legacy.handleFileChange
                            [mkFile (lit "book.xlsx") 9] initial)) 0 in
  let started := Legacy.mkWorld
                   (after (Legacy.clickUpload_begin (Legacy.ui chosen))) 1 in
  Legacy.reachable started
  /\ (indexing (Legacy.ui started) = true
      <-> Legacy.pendingIndex started = 1%nat).
Proof.
  assert (H : Legacy.reachable
                (Legacy.mkWorld
                   (after (Legacy.clickUpload_begin
                             (after (Legacy.handleFileChange
                                       [mkFile (lit "book.xlsx") 9] initial))))
                   1)).
  { eapply Legacy.reach_step with (e := Legacy.UploadClicked);
      [eapply Legacy.reach_step with
         (e := Legacy.FilesChosen [mkFile (lit "book.xlsx") 9]);
       [apply Legacy.reach_initial|reflexivity]
      |reflexivity]. }
  split; [exact H|].
  exact (Legacy_indexing_iff_pending _ H).
Defined.

(* ------------------------------------------------------------------ *)
(** ** status() of the Index Lifecycle Manager *)
(* ------------------------------------------------------------------ *)

Section LifecycleFacts.
Import Lifecycle.

Variable summary : nat -> jsstring.
Variable pipeline : jsstring -> Manager -> ErrorKind + Answer.

(** How the transport layer renders a snapshot and a file listing for
    the client (not fixed by the spec). *)
Variable transport : Snapshot -> response StatusData.t.
Variable listing : list FileEntry -> response FilesData.t.

Lemma invoke_readsOnly (o : op) (m : Manager) :
  readsOnly o = true ->
  snd (invoke summary pipeline o m) = m
  /\ sees (snapshot m) (fst (invoke summary pipeline o m)).
Proof.
  destruct o as [files|n|entry|total|reason| | | |q]; cbn [readsOnly];
    intro H; try discriminate H;
    cbn [invoke fst snd sees]; try (split; reflexivity).
  destruct (JS.eqb (trim q) []); [split; [reflexivity|exact I]|].
  destruct (negb (is_ready (status m))); [split; [reflexivity|exact I]|].
  destruct (pipeline q m); split; first [reflexivity|exact I].
Qed.

Lemma run_readsOnly (ops : list op) (m : Manager) :
  forallb readsOnly ops = true ->
  snd (run summary pipeline ops m) = m
  /\ Forall (sees (snapshot m)) (fst (run summary pipeline ops m)).
Proof.
  induction ops as [|o later IH]; cbn [forallb run]; intro H.
  - split; [reflexivity|constructor].
  - apply andb_true_iff in H. destruct H as [Ho Hl].
    destruct (invoke_readsOnly o m Ho) as [Hm Hs].
    destruct (invoke summary pipeline o m) as [out m1]. cbn [fst snd] in *.
    subst m1. destruct (IH Hl) as [Hm2 Hs2].
    destruct (run summary pipeline later m) as [outs m2]. cbn [fst snd] in *.
    split; [exact Hm2|constructor; assumption].
Qed.

(** C7. [status()] always returns the current snapshot and leaves the
    manager as it was; so do the other reads (file listings, queries).
    Hence two [status()] calls with only reads between them -- no
    ingest step, no reset -- return the same snapshot, as does every
    [status()] call in between, and no indexed state has changed.
    Seen from the client: a poll sends only [GET] requests, and the
    second of two such polls returns the same status and leaves the
    same component snapshot as the first. *)
Theorem status_is_an_idempotent_read :
  forall (between : list op) (m : Manager) (st : State),
    forallb readsOnly between = true ->
    let first := invoke summary pipeline get_status m in
    let m' := snd (run summary pipeline between (snd first)) in
    let again := invoke summary pipeline get_status m' in
    let poll1 := App.fetchStatus (transport (snapshot m))
                   (listing (registry m)) st in
    let poll2 := App.fetchStatus (transport (snapshot m'))
                   (listing (registry m')) (after poll1) in
    fst first = Seen (snapshot m)
    /\ snd first = m
    /\ m' = m
    /\ fst again = fst first
    /\ snd again = m
    /\ Forall (sees (snapshot m)) (fst (run summary pipeline between m))
    /\ forallb isRead (sent poll1) = true
    /\ returned poll2 = returned poll1
    /\ after poll2 = after poll1.
Proof.
  intros between m st H first m' again poll1 poll2.
  subst first m' again poll1 poll2. cbn [invoke fst snd].
  destruct (run_readsOnly between m H) as [Hm Hs]. rewrite Hm.
  repeat split; try assumption.
  - rewrite App_fetchStatus_sent.
    destruct (transport (snapshot m)) as [e|j t|[e|data]]; reflexivity.
  - now rewrite !App_fetchStatus_returned.
  - apply App_fetchStatus_idempotent.
Qed.

(** With an ingest step in between the snapshots differ. *)
Example status_after_complete :
  forall m : Manager,
    status m = Indexing ->
    fst (invoke summary pipeline get_status
           (snd (invoke summary pipeline (complete 2) m)))
    <> fst (invoke summary pipeline get_status m).
Proof.
  intros m H. cbn [invoke fst snd]. unfold snapshot. cbn. rewrite H.
  intro E. discriminate E.
Qed.

End LifecycleFacts.

Lemma status_is_an_idempotent_read_witness :
  let ready := Lifecycle.mkManager Lifecycle.Ready 2 (lit "2 concepts") 2 1
                 [Lifecycle.mkFileEntry (lit "book.xlsx") 9 1] in
  let between := [Lifecycle.answer (lit "total revenue");
                  Lifecycle.list_files; Lifecycle.get_status;
                  Lifecycle.answer []] in
  forallb Lifecycle.readsOnly between = true
  /\ snd (Lifecycle.run (fun _ => []) (fun _ _ => inl Lifecycle.SynthesisError)
            between ready) = ready.
Proof.
  split; [reflexivity|].
  exact (proj1 (proj2 (proj2 (status_is_an_idempotent_read
    (fun _ => []) (fun _ _ => inl Lifecycle.SynthesisError)
    (fun s : Lifecycle.Snapshot =>
       HttpOk (Resolves (StatusData.mk (Some (lit "ok"))
                           (Some (Z.of_nat (Lifecycle.seen_count s)))
                           (Some (Lifecycle.seen_message s)) None)))
    (fun l : list Lifecycle.FileEntry =>
       HttpOk (Resolves (FilesData.mk (Some (map Lifecycle.filename l)))))
    [Lifecycle.answer (lit "total revenue"); Lifecycle.list_files;
     Lifecycle.get_status; Lifecycle.answer []]
    (Lifecycle.mkManager Lifecycle.Ready 2 (lit "2 concepts") 2 1
       [Lifecycle.mkFileEntry (lit "book.xlsx") 9 1])
    initial eq_refl)))).
Defined.
